(** * PipeWire monitor: graph interpretation and consistency checks

    A shallow embedding of [pipe_wire_monitor.py].  The program reads a
    JSON dump of the PipeWire graph and probes it with Python's dynamic
    operations ([in], [.get], subscription, iteration, [==], truth
    testing).  The embedding keeps those operations as they behave on the
    objects [json.loads] produces, including the exception each one raises
    on an operand of the wrong type, so that statements about "never
    raises" can be decided on the code. *)

From Stdlib Require Import ZArith List String Ascii Bool Lia.
From Stdlib Require Import Floats.SpecFloat.
From Stdlib Require Import Permutation.
Import ListNotations.

Local Open Scope Z_scope.
Local Open Scope string_scope.
Local Open Scope list_scope.

(** ** Exceptions and the error monad *)

(** The exception classes the monitored operations can raise. *)
Inductive exn : Type :=
| KeyError
| TypeError
| AttributeError
| IndexError.

(** A computation either returns normally or raises. *)
Inductive res (A : Type) : Type :=
| Ok (a : A)
| Raise (e : exn).

Arguments Ok {A} a.
Arguments Raise {A} e.

Definition bind {A B : Type} (m : res A) (k : A -> res B) : res B :=
  match m with
  | Ok a => k a
  | Raise e => Raise e
  end.

Notation "x <- m ;; k" := (bind m (fun x => k))
  (at level 61, m at next level, right associativity).

Definition returns {A : Type} (m : res A) : Prop := exists a, m = Ok a.

(** ** Python values produced by [json.loads] *)

(** [VDict] holds the items of a dict in insertion order; lookups take the
    first binding of a key, which is the only one when keys are distinct.
    Floats are IEEE values in the mantissa/exponent form of [spec_float].
    Every proof below goes by case analysis or by induction on a list of
    values, so no nested eliminator is generated. *)
Unset Elimination Schemes.
Inductive value : Type :=
| VNone
| VBool (b : bool)
| VInt (z : Z)
| VFloat (f : spec_float)
| VStr (s : string)
| VList (l : list value)
| VDict (d : list (string * value)).
Set Elimination Schemes.

(** *** Numbers *)

(** The numeric reading shared by [bool], [int] and [float]:
    [NFin m e] stands for [m * 2^e]. *)
Inductive num : Type :=
| NFin (m e : Z)
| NInf (negative : bool)
| NNan.

Definition num_of_float (f : spec_float) : num :=
  match f with
  | S754_zero _ => NFin 0 0
  | S754_infinity s => NInf s
  | S754_nan => NNan
  | S754_finite s m e => NFin (if s then Z.neg m else Z.pos m) e
  end.

Definition num_of (v : value) : option num :=
  match v with
  | VBool b => Some (NFin (Z.b2z b) 0)
  | VInt z => Some (NFin z 0)
  | VFloat f => Some (num_of_float f)
  | _ => None
  end.

(** Exact comparison of [m1 * 2^e1] with [m2 * 2^e2]: both are scaled to
    the smaller exponent.  Python compares an int with a float exactly. *)
Definition fin_eqb (m1 e1 m2 e2 : Z) : bool :=
  let e := Z.min e1 e2 in
  (m1 * 2 ^ (e1 - e) =? m2 * 2 ^ (e2 - e))%Z.

Definition num_eqb (a b : num) : bool :=
  match a, b with
  | NFin m1 e1, NFin m2 e2 => fin_eqb m1 e1 m2 e2
  | NInf s, NInf t => Bool.eqb s t
  | _, _ => false
  end.

Definition is_nan (v : value) : bool :=
  match v with
  | VFloat S754_nan => true
  | _ => false
  end.

(** *** Dict items *)

Fixpoint dict_get (k : string) (d : list (string * value)) : option value :=
  match d with
  | [] => None
  | (k', v) :: d' => if String.eqb k k' then Some v else dict_get k d'
  end.

Definition dict_has (k : string) (d : list (string * value)) : bool :=
  match dict_get k d with
  | Some _ => true
  | None => false
  end.

Fixpoint str_mem (k : string) (l : list string) : bool :=
  match l with
  | [] => false
  | k' :: l' => String.eqb k k' || str_mem k l'
  end.

(** The distinct keys of a dict, in insertion order. *)
Fixpoint dict_keys_from (seen : list string) (d : list (string * value))
  : list string :=
  match d with
  | [] => []
  | (k, _) :: d' =>
      if str_mem k seen then dict_keys_from seen d'
      else k :: dict_keys_from (k :: seen) d'
  end.

Definition dict_keys (d : list (string * value)) : list string :=
  dict_keys_from [] d.

(** *** Equality *)

(** [py_eq a b] is Python's [a == b].  Inside a list or a dict the
    elements are compared with the identity shortcut ([x is y or x == y]);
    [json.loads] maps every NaN literal to one float object, so the
    shortcut makes NaN elements agree, and it changes nothing else since
    [==] is reflexive on everything but NaN. *)
Fixpoint py_eq (a b : value) : bool :=
  match a with
  | VNone => match b with VNone => true | _ => false end
  | VStr s => match b with VStr t => String.eqb s t | _ => false end
  | VList la =>
      match b with
      | VList lb =>
          (fix elems (xs ys : list value) {struct xs} : bool :=
             match xs, ys with
             | [], [] => true
             | x :: xs', y :: ys' =>
                 ((is_nan x && is_nan y) || py_eq x y) && elems xs' ys'
             | _, _ => false
             end) la lb
      | _ => false
      end
  | VDict da =>
      match b with
      | VDict db =>
          Nat.eqb (List.length (dict_keys da)) (List.length (dict_keys db))
          && (fix items (seen : list string) (xs : list (string * value))
                {struct xs} : bool :=
                match xs with
                | [] => true
                | (k, x) :: xs' =>
                    (if str_mem k seen then true
                     else match dict_get k db with
                          | Some y => (is_nan x && is_nan y) || py_eq x y
                          | None => false
                          end)
                    && items (k :: seen) xs'
                end) [] da
      | _ => false
      end
  | VBool _ | VInt _ | VFloat _ =>
      match num_of a, num_of b with
      | Some x, Some y => num_eqb x y
      | _, _ => false
      end
  end.

(** [x is y or x == y], the comparison used for dict keys, set members and
    container elements. *)
Definition py_same (a b : value) : bool :=
  (is_nan a && is_nan b) || py_eq a b.

(** The float [1.0]. *)
Definition unity : value := VFloat (S754_finite false 4503599627370496 (-52)).

(** *** Truth value *)

Definition truthy (v : value) : bool :=
  match v with
  | VNone => false
  | VBool b => b
  | VInt z => negb (z =? 0)%Z
  | VFloat (S754_zero _) => false
  | VFloat _ => true
  | VStr s => negb (String.eqb s "")
  | VList [] => false
  | VList _ => true
  | VDict [] => false
  | VDict _ => true
  end.

(** *** Strings *)

Fixpoint is_substring (s t : string) : bool :=
  String.prefix s t
  || match t with
     | EmptyString => false
     | String _ t' => is_substring s t'
     end.

Fixpoint chars (s : string) : list value :=
  match s with
  | EmptyString => []
  | String c s' => VStr (String c EmptyString) :: chars s'
  end.

(** *** The dynamic operations used by the monitor *)

(** [s in v] for a string [s]. *)
Definition py_contains (s : string) (v : value) : res bool :=
  match v with
  | VStr t => Ok (is_substring s t)
  | VList l => Ok (existsb (py_same (VStr s)) l)
  | VDict d => Ok (dict_has s d)
  | VNone | VBool _ | VInt _ | VFloat _ => Raise TypeError
  end.

(** [v.get(k, default)]: only dicts have the method. *)
Definition py_get (v : value) (k : string) (default : value) : res value :=
  match v with
  | VDict d =>
      match dict_get k d with
      | Some x => Ok x
      | None => Ok default
      end
  | _ => Raise AttributeError
  end.

(** [v[k]] for a string key [k]. *)
Definition py_getitem (v : value) (k : string) : res value :=
  match v with
  | VDict d =>
      match dict_get k d with
      | Some x => Ok x
      | None => Raise KeyError
      end
  | _ => Raise TypeError
  end.

(** [v[0]]. *)
Definition py_first (v : value) : res value :=
  match v with
  | VList (x :: _) => Ok x
  | VList [] => Raise IndexError
  | VStr (String c _) => Ok (VStr (String c EmptyString))
  | VStr EmptyString => Raise IndexError
  | VDict _ => Raise KeyError
  | VNone | VBool _ | VInt _ | VFloat _ => Raise TypeError
  end.

(** The elements a [for] loop over [v] visits. *)
Definition py_iter (v : value) : res (list value) :=
  match v with
  | VList l => Ok l
  | VStr s => Ok (chars s)
  | VDict d => Ok (map VStr (dict_keys d))
  | VNone | VBool _ | VInt _ | VFloat _ => Raise TypeError
  end.

Definition hashable (v : value) : bool :=
  match v with
  | VList _ | VDict _ => false
  | _ => true
  end.

Definition is_dict (v : value) : bool :=
  match v with
  | VDict _ => true
  | _ => false
  end.

Definition is_list (v : value) : bool :=
  match v with
  | VList _ => true
  | _ => false
  end.

Definition empty_dict : value := VDict [].

(** ** Dicts keyed by element identity *)

(** [graph.nodes] and [graph.links] are Python dicts keyed by the element's
    ["id"]; iteration follows insertion order.  Assigning to a key that is
    already there keeps the key and its position and replaces the value. *)
Definition pydict : Type := list (value * value).

Fixpoint idx_get (k : value) (d : pydict) : option value :=
  match d with
  | [] => None
  | (k', v) :: d' => if py_same k' k then Some v else idx_get k d'
  end.

Fixpoint idx_set (k v : value) (d : pydict) : pydict :=
  match d with
  | [] => [(k, v)]
  | (k', v') :: d' =>
      if py_same k' k then (k', v) :: d' else (k', v') :: idx_set k v d'
  end.

Definition idx_values (d : pydict) : list value := map snd d.

(** [s.add(x)] on a set kept as the list of its members. *)
Definition set_add (x : value) (s : list value) : list value :=
  if existsb (fun y => py_same y x) s then s else s ++ [x].

(** ** class PipeWireGraph *)

Record PipeWireGraph : Type := mkGraph {
  nodes : pydict;
  links : pydict
}.

(** [{item["id"]: item for item in graph_data if tag in item.get("type", "")}],
    started from the dict [acc]. *)
Fixpoint index_by_type (tag : string) (graph_data : list value) (acc : pydict)
  : res pydict :=
  match graph_data with
  | [] => Ok acc
  | item :: rest =>
      ty <- py_get item "type" (VStr "") ;;
      selected <- py_contains tag ty ;;
      if selected then
        key <- py_getitem item "id" ;;
        if hashable key then index_by_type tag rest (idx_set key item acc)
        else Raise TypeError
      else index_by_type tag rest acc
  end.

(** [PipeWireGraph.__init__] *)
Definition PipeWireGraph_init (graph_data : value) : res PipeWireGraph :=
  node_items <- py_iter graph_data ;;
  ns <- index_by_type "Node" node_items [] ;;
  link_items <- py_iter graph_data ;;
  ls <- index_by_type "Link" link_items [] ;;
  Ok (mkGraph ns ls).

(** ** class PipeWireMonitor *)

(** The classification [run] reports, named as in the specification.  The
    program prints them as the status texts [Err], [N/A], [Vol Err],
    [Idle], [Src Err], [Freq Err] and the device rate.  [_log] and
    [_format_output] only write to and read from the message buffer; no
    branch of the program looks at it. *)
Inductive outcome : Type :=
| Error
| DeviceNotFound
| VolumeMismatch
| Idle
| AmbiguousSources
| RateMismatch
| Consistent (rate : value).

(** [_get_pipewire_graph]: the dump is acquired outside the core.
    [None] stands for any exception of the subprocess call or of
    [json.loads], which the method turns into Python's [None]. *)
Definition _get_pipewire_graph (acquired : option value) : value :=
  match acquired with
  | Some parsed => parsed
  | None => VNone
  end.

(** [node.get("info", {}).get(field, {})] *)
Definition node_info_field (node : value) (field : string) : res value :=
  info <- py_get node "info" empty_dict ;;
  py_get info field empty_dict.

Fixpoint find_first_named (name : string) (candidates : list value)
  : res value :=
  match candidates with
  | [] => Ok VNone
  | node :: rest =>
      props <- node_info_field node "props" ;;
      raw_name <- py_get props "node.name" (VStr "") ;;
      hit <- py_contains name raw_name ;;
      if hit then Ok node else find_first_named name rest
  end.

Definition _find_node_by_name (graph : PipeWireGraph) (name : string)
  : res value :=
  find_first_named name (idx_values (nodes graph)).

Definition _extract_rate_from_value (v : value) : value :=
  match v with
  | VDict d =>
      match dict_get "default" d with
      | Some x => x
      | None => VNone
      end
  | VInt _ | VBool _ => v
  | _ => VNone
  end.

(** [key in params and params[key]] *)
Definition group_is_set (params : value) (key : string) : res bool :=
  present <- py_contains key params ;;
  if present then
    group <- py_getitem params key ;;
    Ok (truthy group)
  else Ok false.

(** [params[key][0]] *)
Definition group_first (params : value) (key : string) : res value :=
  group <- py_getitem params key ;;
  py_first group.

Definition _get_node_sample_rate (node : value) : res value :=
  params <- node_info_field node "params" ;;
  active <- group_is_set params "Format" ;;
  if active then
    format_info <- group_first params "Format" ;;
    nested <- py_contains "audio" format_info ;;
    if nested then
      audio <- py_get format_info "audio" empty_dict ;;
      rate <- py_get audio "rate" VNone ;;
      Ok (_extract_rate_from_value rate)
    else
      rate <- py_get format_info "rate" VNone ;;
      Ok (_extract_rate_from_value rate)
  else
    enumerated <- group_is_set params "EnumFormat" ;;
    if enumerated then
      first <- group_first params "EnumFormat" ;;
      rate <- py_get first "rate" VNone ;;
      Ok (_extract_rate_from_value rate)
    else Ok VNone.

Definition placeholder : value := VStr "Unknown Source".

Definition _get_node_descriptive_name (node : value) : res value :=
  props <- node_info_field node "props" ;;
  description <- py_get props "node.description" VNone ;;
  if truthy description then Ok description
  else
    application <- py_get props "application.name" VNone ;;
    if truthy application then Ok application
    else
      raw_name <- py_get props "node.name" VNone ;;
      if truthy raw_name then Ok raw_name else Ok placeholder.

(** One round of the loop of [_is_volume_at_100]: [Ok false] is the early
    [return False], [Ok true] lets the loop go on. *)
Definition prop_set_at_unity (prop_set : value) : res bool :=
  has_volume <- py_contains "volume" prop_set ;;
  off <- (if has_volume then
            volume <- py_getitem prop_set "volume" ;;
            Ok (negb (py_eq volume unity))
          else Ok false) ;;
  if off then Ok false
  else
    has_channels <- py_contains "channelVolumes" prop_set ;;
    if has_channels then
      channel_volumes <- py_getitem prop_set "channelVolumes" ;;
      vols <- py_iter channel_volumes ;;
      Ok (forallb (fun vol => py_eq vol unity) vols)
    else Ok true.

Fixpoint all_prop_sets_at_unity (prop_sets : list value) : res bool :=
  match prop_sets with
  | [] => Ok true
  | prop_set :: rest =>
      fine <- prop_set_at_unity prop_set ;;
      if fine then all_prop_sets_at_unity rest else Ok false
  end.

Definition _is_volume_at_100 (node : value) : res bool :=
  params <- node_info_field node "params" ;;
  checked <- group_is_set params "Props" ;;
  if negb checked then Ok true
  else
    node_name <- _get_node_descriptive_name node ;;
    node_id <- py_get node "id" VNone ;;
    group <- py_getitem params "Props" ;;
    prop_sets <- py_iter group ;;
    all_prop_sets_at_unity prop_sets.

(** The loop appends the running nodes in the order it meets them.  Each
    round reads the node before the rest of the list is visited, so the
    first node that raises is the one whose exception comes out; the state
    test itself cannot raise. *)
Fixpoint _filter_sources (source_nodes : list value) : res (list value) :=
  match source_nodes with
  | [] => Ok []
  | node :: rest =>
      info <- py_get node "info" empty_dict ;;
      props <- py_get info "props" empty_dict ;;
      state <- py_get info "state" VNone ;;
      log_name <- _get_node_descriptive_name node ;;
      kept <- _filter_sources rest ;;
      if negb (py_eq state (VStr "running")) then Ok kept
      else Ok (node :: kept)
  end.

Section Run.

(** The order in which Python walks a set is not fixed by the language.
    [set_iter] turns the members of [source_node_ids] into the order of
    one execution's walk; the results below hold for every choice. *)
Variable set_iter : list value -> list value.

Variable target_device_substring : string.

(** The first loop of [_get_connected_source_nodes]. *)
Fixpoint collect_source_ids (target_node_id : value) (link_list : list value)
  (source_node_ids : list value) : res (list value) :=
  match link_list with
  | [] => Ok source_node_ids
  | link :: rest =>
      info <- py_get link "info" empty_dict ;;
      input <- py_get info "input-node-id" VNone ;;
      if py_eq input target_node_id then
        output <- py_get info "output-node-id" VNone ;;
        if hashable output
        then collect_source_ids target_node_id rest
               (set_add output source_node_ids)
        else Raise TypeError
      else collect_source_ids target_node_id rest source_node_ids
  end.

(** [[graph.nodes[i] for i in ids if i in graph.nodes]] *)
Definition resolve_ids (graph : PipeWireGraph) (ids : list value)
  : list value :=
  flat_map (fun node_id =>
              match idx_get node_id (nodes graph) with
              | Some node => [node]
              | None => []
              end) ids.

Definition _get_connected_source_nodes (graph : PipeWireGraph)
  (target_node_id : value) : res (list value) :=
  source_node_ids <-
    collect_source_ids target_node_id (idx_values (links graph)) [] ;;
  Ok (resolve_ids graph (set_iter source_node_ids)).

(** Steps 5 and 6 of [run], on the single relevant source. *)
Definition check_single_source (device_freq source : value) : res outcome :=
  source_ok <- _is_volume_at_100 source ;;
  if negb source_ok then Ok VolumeMismatch
  else
    source_freq <- _get_node_sample_rate source ;;
    source_name <- _get_node_descriptive_name source ;;
    source_id <- py_get source "id" VNone ;;
    if truthy source_freq && negb (py_eq device_freq source_freq)
    then Ok RateMismatch
    else Ok (Consistent device_freq).

(** Step 4 of [run]: the branch on the number of relevant sources. *)
Definition check_sources (device_freq : value) (relevant_sources : list value)
  : res outcome :=
  match relevant_sources with
  | [] => Ok Idle
  | source :: _ =>
      if (1 <? List.length relevant_sources)%nat then Ok AmbiguousSources
      else check_single_source device_freq source
  end.

(** Steps 2 to 6 of [run], on the target node found. *)
Definition check_target (graph : PipeWireGraph) (target_node : value)
  : res outcome :=
  device_freq <- _get_node_sample_rate target_node ;;
  if negb (truthy device_freq) then Ok Error
  else
    target_ok <- _is_volume_at_100 target_node ;;
    if negb target_ok then Ok VolumeMismatch
    else
      target_id <- py_getitem target_node "id" ;;
      source_nodes <- _get_connected_source_nodes graph target_id ;;
      relevant_sources <- _filter_sources source_nodes ;;
      check_sources device_freq relevant_sources.

Definition run (acquired : option value) : res outcome :=
  let raw_graph := _get_pipewire_graph acquired in
  if negb (truthy raw_graph) then Ok Error
  else
    graph <- PipeWireGraph_init raw_graph ;;
    target_node <- _find_node_by_name graph target_device_substring ;;
    if negb (truthy target_node) then Ok DeviceNotFound
    else check_target graph target_node.

End Run.

(** ** Formatting the result *)

(** [s.replace(old, new)] for a one-character [old]. *)
Fixpoint str_replace_char (old : ascii) (new s : string) : string :=
  match s with
  | EmptyString => EmptyString
  | String c s' =>
      if Ascii.eqb c old then (new ++ str_replace_char old new s')%string
      else String c (str_replace_char old new s')
  end.

(** [text.replace("&", "&amp;").replace("<", "&lt;").replace(">", "&gt;")] *)
Definition xml_escape (text : string) : string :=
  str_replace_char ">" "&gt;"
    (str_replace_char "<" "&lt;"
       (str_replace_char "&" "&amp;" text)).

Section FormatOutput.

(** Which characters Python's [str.strip] takes for whitespace. *)
Variable isspace : ascii -> bool.

Fixpoint lstrip (s : string) : string :=
  match s with
  | EmptyString => EmptyString
  | String c s' => if isspace c then lstrip s' else s
  end.

Fixpoint rstrip (s : string) : string :=
  match s with
  | EmptyString => EmptyString
  | String c s' =>
      match rstrip s' with
      | EmptyString => if isspace c then EmptyString else String c EmptyString
      | kept => String c kept
      end
  end.

Definition strip (s : string) : string := rstrip (lstrip s).

(** [_format_output], on the status text and the content of the message
    buffer ([log_buffer.getvalue()]). *)
Definition _format_output (status_text log_buffer : string) : string :=
  let tooltip_text := strip log_buffer in
  let tooltip_text := xml_escape tooltip_text in
  (status_text ++ "<tool>" ++ tooltip_text ++ "</tool>")%string.

End FormatOutput.

(** ** Sample data *)

Module Samples.

Definition f64 (m : positive) (e : Z) : value := VFloat (S754_finite false m e).

Definition node_elem (id : Z) (info : list (string * value)) : value :=
  VDict [("id", VInt id); ("type", VStr "PipeWire:Interface:Node");
         ("info", VDict info)].

Definition link_elem (id out_id in_id : Z) : value :=
  VDict [("id", VInt id); ("type", VStr "PipeWire:Interface:Link");
         ("info", VDict [("output-node-id", VInt out_id);
                         ("input-node-id", VInt in_id)])].

Definition audio_format (rate : Z) : value :=
  VDict [("Format", VList [VDict [("audio", VDict [("rate", VInt rate)])]])].

Definition sink : value :=
  node_elem 40 [("props", VDict [("node.name", VStr "alsa_output.usb-dac")]);
                ("state", VStr "running");
                ("params", audio_format 48000)].

Definition player (id rate : Z) (state : string) : value :=
  node_elem id [("props", VDict [("application.name", VStr "player");
                                 ("node.name", VStr "player.out")]);
                ("state", VStr state);
                ("params", audio_format rate)].

Definition in_order (l : list value) : list value := l.

End Samples.

(** ** Vocabulary of the statements *)

(** [d.get(k)] on the items of a dict: [None] when the key is absent. *)
Definition field (d : list (string * value)) (k : string) : value :=
  match dict_get k d with
  | Some x => x
  | None => VNone
  end.

(** A field counts as absent-or-empty when [d.get(k)] is falsy. *)
Definition unset (d : list (string * value)) (k : string) : Prop :=
  truthy (field d k) = false.

(** The name as the specification words it: the first of the three fields
    that is present, the placeholder when none is. *)
Definition first_present_name (props : list (string * value)) : value :=
  match dict_get "node.description" props with
  | Some v => v
  | None =>
      match dict_get "application.name" props with
      | Some v => v
      | None =>
          match dict_get "node.name" props with
          | Some v => v
          | None => placeholder
          end
      end
  end.

Definition node_with_props (props : list (string * value)) : value :=
  VDict [("id", VInt 7); ("info", VDict [("props", VDict props)])].

(** A property entry fails the check when its master volume is present
    and differs from [1.0], or when its channel list holds a value that
    differs from [1.0]. *)
Definition entry_off (d : list (string * value)) : bool :=
  match dict_get "volume" d with
  | Some v => negb (py_eq v unity)
  | None => false
  end
  || match dict_get "channelVolumes" d with
     | Some (VList vols) => existsb (fun vol => negb (py_eq vol unity)) vols
     | _ => false
     end.

Definition prop_set_off (prop_set : value) : bool :=
  match prop_set with
  | VDict d => entry_off d
  | _ => false
  end.

(** [optional P d k]: the field [k] of [d], when present, satisfies [P]. *)
Definition optional (P : value -> bool) (d : list (string * value))
  (k : string) : bool :=
  match dict_get k d with
  | Some v => P v
  | None => true
  end.

Definition list_of (P : value -> bool) (v : value) : bool :=
  match v with
  | VList l => forallb P l
  | _ => false
  end.

(** A property entry of the expected shape: a record whose channel
    volumes, when present, are a list. *)
Definition props_entry_ok (v : value) : bool :=
  match v with
  | VDict d => optional is_list d "channelVolumes"
  | _ => false
  end.

(** The shapes the resolvers rely on: every container they walk into is of
    the kind they expect when it is present at all. *)
Definition format_entry_ok (v : value) : bool :=
  match v with
  | VDict d => optional is_dict d "audio"
  | _ => false
  end.

Definition params_ok (v : value) : bool :=
  match v with
  | VDict d =>
      optional (list_of format_entry_ok) d "Format"
      && optional (list_of is_dict) d "EnumFormat"
      && optional (list_of props_entry_ok) d "Props"
  | _ => false
  end.

Definition info_ok (v : value) : bool :=
  match v with
  | VDict d => optional is_dict d "props" && optional params_ok d "params"
  | _ => false
  end.

Definition well_shaped (node : value) : bool :=
  match node with
  | VDict d => optional info_ok d "info"
  | _ => false
  end.

(** A record the construction can take: a dict whose type discriminator,
    when present, is a string, and which carries a hashable "id" when the
    discriminator contains one of the two tags. *)
Definition record_ok (item : value) : bool :=
  match item with
  | VDict d =>
      match dict_get "type" d with
      | None => true
      | Some (VStr ty) =>
          if is_substring "Node" ty || is_substring "Link" ty
          then match dict_get "id" d with
               | Some key => hashable key
               | None => false
               end
          else true
      | Some _ => false
      end
  | _ => false
  end.

(** [has_tag tag e]: the type discriminator of [e] contains [tag]. *)
Definition has_tag (tag : string) (e : value) : Prop :=
  exists ty, py_get e "type" (VStr "") = Ok ty /\ py_contains tag ty = Ok true.

(** The raw internal name the lookup tests:
    [node.get("info", {}).get("props", {}).get("node.name", "")]. *)
Definition raw_name (node : value) : res value :=
  props <- node_info_field node "props" ;;
  py_get props "node.name" (VStr "").

(** [run] has found the target, resolved its rate to the truthy
    [device_freq], found its volume at unity, and filtered its upstream
    sources down to [relevant]. *)
Definition reaches_sources (set_iter : list value -> list value)
  (name : string) (snapshot device_freq : value) (relevant : list value)
  : Prop :=
  exists g target target_id source_nodes,
    truthy snapshot = true
    /\ PipeWireGraph_init snapshot = Ok g
    /\ _find_node_by_name g name = Ok target
    /\ truthy target = true
    /\ _get_node_sample_rate target = Ok device_freq
    /\ truthy device_freq = true
    /\ _is_volume_at_100 target = Ok true
    /\ py_getitem target "id" = Ok target_id
    /\ _get_connected_source_nodes set_iter g target_id = Ok source_nodes
    /\ _filter_sources source_nodes = Ok relevant.

(** The runtime state the filter reads: [node.get("info", {}).get("state")]. *)
Definition node_state (node : value) : res value :=
  info <- py_get node "info" empty_dict ;;
  py_get info "state" VNone.

(** *** Keys *)

(** On hashable values [py_same] compares the numeric readings, the
    strings, or the two [None]s, and lets NaN agree with NaN. *)
Definition key_same (a b : value) : bool :=
  match num_of a, num_of b with
  | Some x, Some y => (is_nan a && is_nan b) || num_eqb x y
  | None, None =>
      match a, b with
      | VNone, VNone => true
      | VStr s, VStr t => String.eqb s t
      | _, _ => false
      end
  | _, _ => false
  end.

(** *** Indices *)

(** An entry of an index built for [tag]: the key is hashable, the element
    carries the tag and an "id" that the key stands for. *)
Definition entry_ok (tag : string) (entry : value * value) : Prop :=
  hashable (fst entry) = true
  /\ has_tag tag (snd entry)
  /\ exists key, py_getitem (snd entry) "id" = Ok key
                 /\ hashable key = true
                 /\ py_same (fst entry) key = true.

(** No two keys of the dict stand for the same identity. *)
Fixpoint keys_distinct (d : pydict) : Prop :=
  match d with
  | [] => True
  | (k, _) :: d' =>
      (forall k' v', In (k', v') d' -> py_same k k' = false)
      /\ keys_distinct d'
  end.

(** [selects tag k item]: the comprehension for [tag] takes [item] and
    files it under the identity [k]. *)
Definition selects (tag : string) (k item : value) : bool :=
  match py_get item "type" (VStr "") with
  | Ok ty =>
      match py_contains tag ty with
      | Ok true =>
          match py_getitem item "id" with
          | Ok key => py_same key k
          | Raise _ => false
          end
      | _ => false
      end
  | Raise _ => false
  end.

(** The last element of [items] that [selects] accepts, if any. *)
Definition last_selected (tag : string) (k : value) (items : list value)
  : option value :=
  fold_left (fun found item => if selects tag k item then Some item else found)
            items None.

(** *** Lookup and filter *)

(** The test [_find_node_by_name] applies to a node: [name in raw_name]. *)
Definition name_test (name : string) (node : value) : res bool :=
  raw <- raw_name node ;;
  py_contains name raw.

Definition name_resolves (node : value) : bool :=
  match _get_node_descriptive_name node with
  | Ok _ => true
  | Raise _ => false
  end.

Definition is_running (node : value) : bool :=
  match node_state node with
  | Ok state => py_eq state (VStr "running")
  | Raise _ => false
  end.

(** *** Topology *)

(** [feeds target_id link out]: the link's input side is the target and its
    output side is the identity [out] ([None] when the link names none). *)
Definition feeds (target_id link out : value) : Prop :=
  exists info input,
    py_get link "info" empty_dict = Ok info
    /\ py_get info "input-node-id" VNone = Ok input
    /\ py_eq input target_id = true
    /\ py_get info "output-node-id" VNone = Ok out.

(** The members of a set, newest first, stand for different identities. *)
Fixpoint members_distinct (newest_first : list value) : Prop :=
  match newest_first with
  | [] => True
  | x :: older =>
      (forall y, In y older -> py_same y x = false)
      /\ members_distinct older
  end.

(** *** Well-formed dumps *)

(** The raw name of the element is a string (the empty one when absent). *)
Definition named_by_string (e : value) : bool :=
  match raw_name e with
  | Ok (VStr _) => true
  | _ => false
  end.

(** The output side the element names as a link, when it names one, is
    hashable. *)
Definition output_hashable (e : value) : bool :=
  match (info <- py_get e "info" empty_dict ;;
         py_get info "output-node-id" VNone) with
  | Ok out => hashable out
  | Raise _ => false
  end.

(** An element of a well-formed dump. *)
Definition element_ok (e : value) : bool :=
  record_ok e && well_shaped e && named_by_string e && output_hashable e.

(** *** Escaping *)

(** The entity one character is written as. *)
Definition escape_char (c : ascii) : string :=
  if Ascii.eqb c "&" then "&amp;"
  else if Ascii.eqb c "<" then "&lt;"
  else if Ascii.eqb c ">" then "&gt;"
  else String c EmptyString.

Fixpoint escape_each (s : string) : string :=
  match s with
  | EmptyString => EmptyString
  | String c s' => (escape_char c ++ escape_each s')%string
  end.

(** Reading the three entities back. *)
Fixpoint xml_unescape (s : string) : string :=
  match s with
  | EmptyString => EmptyString
  | String c s' =>
      if Ascii.eqb c "&" then
        match s' with
        | String "a" (String "m" (String "p" (String ";" r))) =>
            String "&" (xml_unescape r)
        | String "l" (String "t" (String ";" r)) => String "<" (xml_unescape r)
        | String "g" (String "t" (String ";" r)) => String ">" (xml_unescape r)
        | _ => String c (xml_unescape s')
        end
      else String c (xml_unescape s')
  end.

(** ** Running the error monad *)

Lemma bind_ok {A B : Type} (a : A) (k : A -> res B) : bind (Ok a) k = k a.
Proof. reflexivity. Qed.

Lemma bind_raise {A B : Type} (e : exn) (k : A -> res B) :
  bind (Raise e) k = Raise e.
Proof. reflexivity. Qed.

(** Run the steps of a computation whose first result is known. *)
Ltac step := rewrite ?bind_ok; cbv beta.

(** ** Reading fields *)

Lemma py_get_dict d k default :
  py_get (VDict d) k default
  = Ok match dict_get k d with Some x => x | None => default end.
Proof. unfold py_get. destruct (dict_get k d); reflexivity. Qed.

Lemma py_get_field d k : py_get (VDict d) k VNone = Ok (field d k).
Proof. apply py_get_dict. Qed.

Lemma py_get_returns_dict v k default x :
  py_get v k default = Ok x -> exists d, v = VDict d.
Proof. destruct v; simpl; try discriminate. intros _. eauto. Qed.

Lemma absent_unset d k : dict_get k d = None -> unset d k.
Proof. unfold unset, field. intros ->. reflexivity. Qed.

Lemma group_is_set_dict d k :
  group_is_set (VDict d) k = Ok (truthy (field d k)).
Proof.
  unfold group_is_set, field, py_contains, dict_has, py_getitem; simpl.
  destruct (dict_get k d); reflexivity.
Qed.


(** ** Descriptive name *)

(** C9, as stated, fails: a description that is present but empty is
    passed over by the [or] chain, and the application name is returned. *)
Lemma descriptive_name_skips_empty_description :
  let props := [("node.description", VStr "");
                ("application.name", VStr "Firefox")] in
  first_present_name props = VStr ""
  /\ _get_node_descriptive_name (node_with_props props) = Ok (VStr "Firefox")
  /\ _get_node_descriptive_name (node_with_props props)
     <> Ok (first_present_name props).
Proof. repeat split. discriminate. Qed.

(** C9 (amended).  For every node whose property bag is a dict, the
    descriptive name is the first of description, application name and
    raw name that is present and non-empty (truthy), and the placeholder
    ["Unknown Source"] when each of the three is absent or empty. *)
Theorem descriptive_name_priority (node : value) (props : list (string * value))
  (Hprops : node_info_field node "props" = Ok (VDict props)) :
  (truthy (field props "node.description") = true ->
   _get_node_descriptive_name node = Ok (field props "node.description"))
  /\ (unset props "node.description" ->
      truthy (field props "application.name") = true ->
      _get_node_descriptive_name node = Ok (field props "application.name"))
  /\ (unset props "node.description" ->
      unset props "application.name" ->
      truthy (field props "node.name") = true ->
      _get_node_descriptive_name node = Ok (field props "node.name"))
  /\ (unset props "node.description" ->
      unset props "application.name" ->
      unset props "node.name" ->
      _get_node_descriptive_name node = Ok (VStr "Unknown Source")).
Proof.
  unfold _get_node_descriptive_name, unset. rewrite Hprops. step.
  rewrite !py_get_field. step.
  repeat split; intros.
  - rewrite H. reflexivity.
  - rewrite H, H0. reflexivity.
  - rewrite H, H0, H1. reflexivity.
  - rewrite H, H0, H1. reflexivity.
Qed.

Lemma descriptive_name_priority_witness :
  let props := [("node.description", VStr "");
                ("application.name", VStr "Firefox")] in
  _get_node_descriptive_name (node_with_props props) = Ok (VStr "Firefox").
Proof.
  intro props.
  destruct (descriptive_name_priority (node_with_props props) props eq_refl)
    as (_ & Happ & _).
  apply Happ; reflexivity.
Defined.

(** ** Sample rate *)

Lemma extract_rate_cases :
  (forall d x, dict_get "default" d = Some x ->
               _extract_rate_from_value (VDict d) = x)
  /\ (forall d, dict_get "default" d = None ->
                _extract_rate_from_value (VDict d) = VNone)
  /\ (forall z, _extract_rate_from_value (VInt z) = VInt z)
  /\ _extract_rate_from_value VNone = VNone
  /\ (forall s, _extract_rate_from_value (VStr s) = VNone)
  /\ (forall f, _extract_rate_from_value (VFloat f) = VNone)
  /\ (forall l, _extract_rate_from_value (VList l) = VNone).
Proof.
  repeat split; intros; simpl; try reflexivity.
  - rewrite H. reflexivity.
  - rewrite H. reflexivity.
Qed.

Lemma sample_rate_of_params node params :
  node_info_field node "params" = Ok (VDict params) ->
  _get_node_sample_rate node =
  (if truthy (field params "Format") then
     format_info <- group_first (VDict params) "Format" ;;
     nested <- py_contains "audio" format_info ;;
     if nested then
       audio <- py_get format_info "audio" empty_dict ;;
       rate <- py_get audio "rate" VNone ;;
       Ok (_extract_rate_from_value rate)
     else
       rate <- py_get format_info "rate" VNone ;;
       Ok (_extract_rate_from_value rate)
   else if truthy (field params "EnumFormat") then
     first <- group_first (VDict params) "EnumFormat" ;;
     rate <- py_get first "rate" VNone ;;
     Ok (_extract_rate_from_value rate)
   else Ok VNone).
Proof.
  intros H. unfold _get_node_sample_rate. rewrite H. step.
  rewrite !group_is_set_dict. step.
  destruct (truthy (field params "Format")); reflexivity.
Qed.



(** ** Volume at unity *)

Lemma forallb_not_existsb {A : Type} (f : A -> bool) (l : list A) :
  forallb f l = negb (existsb (fun x => negb (f x)) l).
Proof.
  induction l as [|x l IH]; simpl; [reflexivity|].
  rewrite IH. destruct (f x); reflexivity.
Qed.

Lemma prop_set_at_unity_spec prop_set :
  props_entry_ok prop_set = true ->
  prop_set_at_unity prop_set = Ok (negb (prop_set_off prop_set)).
Proof.
  destruct prop_set as [| | | | |l|d]; simpl; try discriminate.
  unfold optional, prop_set_at_unity, entry_off, py_contains, dict_has,
    py_getitem.
  destruct (dict_get "volume" d) as [v|]; step.
  - destruct (py_eq v unity); simpl; [|reflexivity].
    destruct (dict_get "channelVolumes" d) as [[]|]; try discriminate;
      intros _; step; simpl; [|reflexivity].
    rewrite forallb_not_existsb. reflexivity.
  - simpl.
    destruct (dict_get "channelVolumes" d) as [[]|]; try discriminate;
      intros _; step; simpl; [|reflexivity].
    rewrite forallb_not_existsb. reflexivity.
Qed.

Lemma all_prop_sets_spec prop_sets :
  forallb props_entry_ok prop_sets = true ->
  all_prop_sets_at_unity prop_sets = Ok (negb (existsb prop_set_off prop_sets)).
Proof.
  induction prop_sets as [|p rest IH]; simpl; [reflexivity|].
  intros H. apply andb_prop in H as [Hp Hrest].
  rewrite (prop_set_at_unity_spec _ Hp). step.
  destruct (prop_set_off p); simpl; [reflexivity|]. apply IH, Hrest.
Qed.




Lemma node_info_field_dict node k v :
  node_info_field node k = Ok v -> exists nd, node = VDict nd.
Proof.
  unfold node_info_field. destruct node; simpl; try discriminate. eauto.
Qed.

Lemma volume_of_params node params :
  node_info_field node "params" = Ok (VDict params) ->
  _is_volume_at_100 node =
  (if truthy (field params "Props") then
     node_name <- _get_node_descriptive_name node ;;
     prop_sets <- py_iter (field params "Props") ;;
     all_prop_sets_at_unity prop_sets
   else Ok true).
Proof.
  intros H. unfold _is_volume_at_100. rewrite H. step.
  rewrite group_is_set_dict. step.
  destruct (node_info_field_dict _ _ _ H) as [nd ->].
  unfold field.
  destruct (dict_get "Props" params) as [g|] eqn:Hg; [|reflexivity].
  destruct (truthy g); [|reflexivity]. simpl negb. cbv iota.
  destruct (_get_node_descriptive_name (VDict nd)); [|reflexivity]. step.
  rewrite py_get_dict. step. unfold py_getitem. rewrite Hg. step. reflexivity.
Qed.



(** ** Totality of attribute resolution *)

(** C1, as stated, fails: a node whose "info" is [null] makes each of the
    three resolvers raise [AttributeError]. *)
Lemma attribute_resolution_can_raise :
  let node := VDict [("id", VInt 7); ("info", VNone)] in
  _get_node_sample_rate node = Raise AttributeError
  /\ _get_node_descriptive_name node = Raise AttributeError
  /\ _is_volume_at_100 node = Raise AttributeError.
Proof. repeat split. Qed.

Lemma well_shaped_fields node :
  well_shaped node = true ->
  exists nd props params,
    node = VDict nd
    /\ node_info_field node "props" = Ok (VDict props)
    /\ node_info_field node "params" = Ok (VDict params)
    /\ params_ok (VDict params) = true
    /\ (dict_get "info" nd = None -> props = [] /\ params = [])
    /\ (forall info, dict_get "info" nd = Some (VDict info) ->
                     (dict_get "props" info = None -> props = [])
                     /\ (dict_get "params" info = None -> params = [])).
Proof.
  destruct node as [| | | | | |nd]; try discriminate.
  unfold well_shaped, optional, node_info_field. rewrite py_get_dict.
  destruct (dict_get "info" nd) as [info|] eqn:Hinfo.
  - destruct info as [| | | | | |info]; try discriminate.
    simpl info_ok. unfold optional. intros H. step. rewrite !py_get_dict.
    apply andb_prop in H as [Hprops Hparams].
    destruct (dict_get "props" info) as [[]|] eqn:Hp; try discriminate;
      destruct (dict_get "params" info) as [[]|] eqn:Hq; try discriminate;
      do 3 eexists;
      refine (conj eq_refl (conj eq_refl (conj eq_refl (conj _ (conj _ _)))));
      try assumption; try reflexivity; try congruence;
      intros i Hi; rewrite Hinfo in Hi; injection Hi as <-; split; congruence.
  - intros _. exists nd, [], []. repeat split; congruence.
Qed.

Lemma descriptive_name_total node props :
  node_info_field node "props" = Ok (VDict props) ->
  returns (_get_node_descriptive_name node).
Proof.
  intros H. unfold _get_node_descriptive_name, returns. rewrite H. step.
  rewrite !py_get_field. step.
  destruct (truthy (field props "node.description")); [eauto|].
  destruct (truthy (field props "application.name")); [eauto|].
  destruct (truthy (field props "node.name")); eauto.
Qed.

Lemma descriptive_name_default node :
  node_info_field node "props" = Ok (VDict []) ->
  _get_node_descriptive_name node = Ok placeholder.
Proof.
  intros H. unfold _get_node_descriptive_name. rewrite H. reflexivity.
Qed.

Lemma list_of_inv P v :
  list_of P v = true -> exists l, v = VList l /\ forallb P l = true.
Proof. destruct v; simpl; try discriminate. eauto. Qed.

Lemma is_dict_inv v : is_dict v = true -> exists d, v = VDict d.
Proof. destruct v; simpl; try discriminate. eauto. Qed.

Lemma first_entry_rate_total entry :
  is_dict entry = true ->
  returns (rate <- py_get entry "rate" VNone ;;
           Ok (_extract_rate_from_value rate)).
Proof.
  intros H. apply is_dict_inv in H as [d ->].
  rewrite py_get_field. step. unfold returns. eauto.
Qed.

Lemma sample_rate_total node params :
  node_info_field node "params" = Ok (VDict params) ->
  params_ok (VDict params) = true ->
  returns (_get_node_sample_rate node).
Proof.
  intros Hparams Hok. rewrite (sample_rate_of_params _ _ Hparams).
  simpl in Hok. apply andb_prop in Hok as [Hok _].
  apply andb_prop in Hok as [Hformat Henum].
  unfold optional in Hformat, Henum. unfold field, group_first, py_getitem.
  assert (Hfallback :
    returns (if truthy match dict_get "EnumFormat" params with
                       | Some x => x
                       | None => VNone
                       end
             then first <- (group <- match dict_get "EnumFormat" params with
                                     | Some x => Ok x
                                     | None => Raise KeyError
                                     end ;; py_first group) ;;
                  rate <- py_get first "rate" VNone ;;
                  Ok (_extract_rate_from_value rate)
             else Ok VNone)).
  { destruct (dict_get "EnumFormat" params) as [g|];
      [|unfold returns; simpl; eauto].
    apply list_of_inv in Henum as (l & -> & Hl).
    destruct l as [|entry more]; [unfold returns; simpl; eauto|].
    simpl in Hl. apply andb_prop in Hl as [Hentry _].
    simpl truthy. cbv iota. step. simpl py_first. step.
    apply first_entry_rate_total, Hentry. }
  destruct (dict_get "Format" params) as [g|]; [|exact Hfallback].
  apply list_of_inv in Hformat as (l & -> & Hl).
  destruct l as [|entry more]; [exact Hfallback|].
  simpl in Hl. apply andb_prop in Hl as [Hentry _].
  simpl truthy. cbv iota. step. simpl py_first. step.
  destruct entry as [| | | | | |fd]; try discriminate.
  simpl in Hentry. unfold optional in Hentry.
  unfold py_contains, dict_has. rewrite py_get_dict.
  destruct (dict_get "audio" fd) as [audio|]; step.
  - apply first_entry_rate_total, Hentry.
  - apply first_entry_rate_total. reflexivity.
Qed.

Lemma sample_rate_default node :
  node_info_field node "params" = Ok (VDict []) ->
  _get_node_sample_rate node = Ok VNone.
Proof.
  intros H. rewrite (sample_rate_of_params _ _ H). reflexivity.
Qed.

Lemma volume_total node params :
  node_info_field node "params" = Ok (VDict params) ->
  params_ok (VDict params) = true ->
  returns (_get_node_descriptive_name node) ->
  returns (_is_volume_at_100 node).
Proof.
  intros Hparams Hok [name Hname].
  rewrite (volume_of_params _ _ Hparams), Hname. step.
  simpl in Hok. apply andb_prop in Hok as [_ Hprops].
  unfold optional in Hprops. unfold field, returns.
  destruct (dict_get "Props" params) as [g|]; [|simpl; eauto].
  apply list_of_inv in Hprops as (l & -> & Hl).
  destruct l as [|entry more]; [simpl; eauto|].
  simpl truthy. cbv iota. simpl py_iter. step.
  rewrite (all_prop_sets_spec _ Hl). eauto.
Qed.

Lemma volume_default node :
  node_info_field node "params" = Ok (VDict []) ->
  _is_volume_at_100 node = Ok true.
Proof.
  intros H. rewrite (volume_of_params _ _ H). reflexivity.
Qed.

(** C1 (amended).  For every node of the expected shape, that is a record
    whose "info", and in it "props" and "params", are records when
    present, whose "Format", "EnumFormat" and "Props" groups are lists of
    records when present, with the "audio" field of a format entry a
    record and the "channelVolumes" field of a property entry a list when
    present, each of the three resolvers returns without raising.  An
    absent field gives the default: without "info" the rate is unknown,
    the name is the placeholder and the volume check is true; without
    "params" the rate is unknown and the volume check is true; without
    "props" the name is the placeholder. *)
Theorem attribute_resolution_total (node : value)
  (Hshape : well_shaped node = true) :
  returns (_get_node_sample_rate node)
  /\ returns (_get_node_descriptive_name node)
  /\ returns (_is_volume_at_100 node)
  /\ (forall nd, node = VDict nd -> dict_get "info" nd = None ->
                 _get_node_sample_rate node = Ok VNone
                 /\ _get_node_descriptive_name node = Ok (VStr "Unknown Source")
                 /\ _is_volume_at_100 node = Ok true)
  /\ (forall nd info,
         node = VDict nd -> dict_get "info" nd = Some (VDict info) ->
         (dict_get "params" info = None ->
          _get_node_sample_rate node = Ok VNone
          /\ _is_volume_at_100 node = Ok true)
         /\ (dict_get "props" info = None ->
             _get_node_descriptive_name node = Ok (VStr "Unknown Source"))).
Proof.
  destruct (well_shaped_fields _ Hshape)
    as (nd & props & params & -> & Hprops & Hparams & Hok & Hnoinfo & Hinfo).
  pose proof (descriptive_name_total _ _ Hprops) as Hname.
  refine (conj _ (conj Hname (conj _ (conj _ _)))).
  - eapply sample_rate_total; eassumption.
  - eapply volume_total; eassumption.
  - intros nd' [= <-] Habsent.
    destruct (Hnoinfo Habsent) as [-> ->].
    auto using sample_rate_default, descriptive_name_default, volume_default.
  - intros nd' info [= <-] Hpresent.
    destruct (Hinfo _ Hpresent) as [Hp Hq]. split.
    + intros Habsent. rewrite (Hq Habsent) in Hparams.
      auto using sample_rate_default, volume_default.
    + intros Habsent. rewrite (Hp Habsent) in Hprops.
      auto using descriptive_name_default.
Qed.

Lemma attribute_resolution_total_witness :
  returns (_get_node_sample_rate Samples.sink)
  /\ returns (_get_node_descriptive_name Samples.sink)
  /\ returns (_is_volume_at_100 Samples.sink).
Proof.
  destruct (attribute_resolution_total Samples.sink eq_refl)
    as (Hrate & Hname & Hvolume & _).
  exact (conj Hrate (conj Hname Hvolume)).
Defined.

(** ** Graph model construction *)

(** C3, as stated, fails: a node-like record without "id" makes the
    construction raise [KeyError]. *)
Lemma graph_init_raises_on_missing_id :
  PipeWireGraph_init (VList [VDict [("type", VStr "PipeWire:Interface:Node")]])
  = Raise KeyError.
Proof. reflexivity. Qed.

Lemma index_by_type_total tag graph_data :
  tag = "Node" \/ tag = "Link" ->
  forallb record_ok graph_data = true ->
  forall acc, returns (index_by_type tag graph_data acc).
Proof.
  intros Htag. induction graph_data as [|item rest IH]; simpl; intros Hok acc.
  - unfold returns; eauto.
  - apply andb_prop in Hok as [Hitem Hrest].
    destruct item as [| | | | | |d]; try discriminate.
    simpl in Hitem. rewrite py_get_dict.
    destruct (dict_get "type" d) as [ty|]; step.
    + destruct ty as [| | | |ty| |]; try discriminate. simpl py_contains. step.
      destruct (is_substring tag ty) eqn:Hsel; [|apply IH, Hrest].
      assert (Hany : is_substring "Node" ty || is_substring "Link" ty = true).
      { destruct Htag as [-> | ->]; rewrite Hsel;
          [reflexivity | apply orb_true_r]. }
      rewrite Hany in Hitem. unfold py_getitem.
      destruct (dict_get "id" d) as [key|]; [|discriminate]. step.
      rewrite Hitem. apply IH, Hrest.
    + destruct Htag as [-> | ->]; simpl; apply IH, Hrest.
Qed.

(** C3 (amended).  For every sequence of records in which each record is
    a dict whose type discriminator, when present, is a string, and each
    record whose discriminator contains the node or the link tag carries a
    hashable "id", the construction returns its two indices without
    raising; records without a discriminator are accepted; on the empty
    sequence both indices are empty. *)
Theorem graph_init_total (graph_data : list value)
  (Hrecords : forallb record_ok graph_data = true) :
  returns (PipeWireGraph_init (VList graph_data))
  /\ PipeWireGraph_init (VList []) = Ok (mkGraph [] []).
Proof.
  split; [|reflexivity].
  unfold PipeWireGraph_init. simpl py_iter. step.
  destruct (index_by_type_total "Node" graph_data (or_introl eq_refl) Hrecords [])
    as [ns ->].
  step.
  destruct (index_by_type_total "Link" graph_data (or_intror eq_refl) Hrecords [])
    as [ls ->].
  step. unfold returns; eauto.
Qed.

Lemma graph_init_total_witness :
  returns (PipeWireGraph_init
             (VList [Samples.sink; Samples.link_elem 60 50 40;
                     VDict [("id", VInt 3)];
                     VDict [("type", VStr "PipeWire:Interface:Port")]]))
  /\ PipeWireGraph_init (VList []) = Ok (mkGraph [] []).
Proof. apply graph_init_total. reflexivity. Defined.

(** C8, as stated, fails: a record whose discriminator contains both tags
    is placed in the node index and in the link index. *)
Lemma element_in_both_indices :
  let e := VDict [("id", VInt 1);
                  ("type", VStr "PipeWire:Interface:Node+Link")] in
  exists g, PipeWireGraph_init (VList [e]) = Ok g
            /\ In e (idx_values (nodes g))
            /\ In e (idx_values (links g)).
Proof. eexists. split; [reflexivity|]. split; left; reflexivity. Qed.

Lemma idx_set_values k v d e :
  In e (idx_values (idx_set k v d)) -> e = v \/ In e (idx_values d).
Proof.
  unfold idx_values. induction d as [|[k' v'] d IH]; simpl.
  - intros [<-|[]]. auto.
  - destruct (py_same k' k); simpl.
    + intros [<-|H]; auto.
    + intros [<-|H]; auto. destruct (IH H); auto.
Qed.

Lemma index_by_type_sound tag graph_data :
  forall acc d,
    index_by_type tag graph_data acc = Ok d ->
    forall e, In e (idx_values d) ->
              In e (idx_values acc) \/ (In e graph_data /\ has_tag tag e).
Proof.
  induction graph_data as [|item rest IH]; simpl; intros acc d H e He.
  - injection H as <-. auto.
  - destruct (py_get item "type" (VStr "")) as [ty|] eqn:Hty; [|discriminate].
    rewrite bind_ok in H.
    destruct (py_contains tag ty) as [[]|] eqn:Hsel; try discriminate;
      rewrite bind_ok in H.
    + destruct (py_getitem item "id") as [key|]; [|discriminate].
      rewrite bind_ok in H.
      destruct (hashable key); [|discriminate].
      destruct (IH _ _ H e He) as [Hacc | [Hin Htag]]; [|auto].
      apply idx_set_values in Hacc as [-> | Hacc]; [|auto].
      right. split; [auto|]. exists ty. auto.
    + destruct (IH _ _ H e He) as [Hacc | [Hin Htag]]; auto.
Qed.

(** C8 (amended).  For every snapshot on which the construction returns,
    an element is in the node index only if its type discriminator
    contains the node tag, and in the link index only if it contains the
    link tag.  So an element is in both indices only when its
    discriminator contains both tags, and an element whose discriminator
    contains neither tag is in neither index. *)
Theorem index_membership_by_tag (snapshot : value) (g : PipeWireGraph)
  (Hinit : PipeWireGraph_init snapshot = Ok g) (e : value) :
  (In e (idx_values (nodes g)) -> has_tag "Node" e)
  /\ (In e (idx_values (links g)) -> has_tag "Link" e)
  /\ (In e (idx_values (nodes g)) -> In e (idx_values (links g)) ->
      has_tag "Node" e /\ has_tag "Link" e)
  /\ (~ has_tag "Node" e -> ~ has_tag "Link" e ->
      ~ In e (idx_values (nodes g)) /\ ~ In e (idx_values (links g))).
Proof.
  unfold PipeWireGraph_init in Hinit.
  destruct (py_iter snapshot) as [items|]; [|discriminate].
  rewrite bind_ok in Hinit.
  destruct (index_by_type "Node" items []) as [ns|] eqn:Hns; [|discriminate].
  rewrite !bind_ok in Hinit.
  destruct (index_by_type "Link" items []) as [ls|] eqn:Hls; [|discriminate].
  rewrite bind_ok in Hinit. injection Hinit as <-. simpl nodes. simpl links.
  assert (Hn : In e (idx_values ns) -> has_tag "Node" e).
  { intros H. destruct (index_by_type_sound _ _ _ _ Hns e H) as [[]|[_ Ht]].
    exact Ht. }
  assert (Hl : In e (idx_values ls) -> has_tag "Link" e).
  { intros H. destruct (index_by_type_sound _ _ _ _ Hls e H) as [[]|[_ Ht]].
    exact Ht. }
  repeat split; auto.
Qed.

Lemma index_membership_by_tag_witness :
  let e := VDict [("id", VInt 1);
                  ("type", VStr "PipeWire:Interface:Node+Link")] in
  has_tag "Node" e /\ has_tag "Link" e.
Proof.
  intro e.
  destruct (index_membership_by_tag (VList [e])
              (mkGraph [(VInt 1, e)] [(VInt 1, e)]) eq_refl e)
    as (_ & _ & Hboth & _).
  apply Hboth; left; reflexivity.
Defined.

(** ** The decision engine *)





Lemma run_at_sources set_iter name snapshot device_freq relevant :
  reaches_sources set_iter name snapshot device_freq relevant ->
  run set_iter name (Some snapshot) = check_sources device_freq relevant.
Proof.
  intros (g & target & tid & srcs & Hne & Hinit & Hfind & Htarget & Hrate
          & Hknown & Hvol & Hid & Hsrcs & Hfilter).
  unfold run. simpl _get_pipewire_graph. rewrite Hne, Hinit. step.
  rewrite Hfind. step. rewrite Htarget. simpl negb. cbv iota.
  unfold check_target. rewrite Hrate. step. rewrite Hknown, Hvol. step.
  simpl negb. cbv iota. rewrite Hid. step. rewrite Hsrcs. step.
  rewrite Hfilter. step. reflexivity.
Qed.

Lemma py_eq_str v s : py_eq v (VStr s) = true -> v = VStr s.
Proof.
  destruct v as [|b|z|f|t| |]; simpl; try discriminate.
  intros H. apply String.eqb_eq in H. congruence.
Qed.

(** What [_filter_sources] keeps: the nodes whose state is "running", each
    with a resolvable descriptive name. *)
Lemma filter_sources_kept source_nodes :
  forall relevant,
    _filter_sources source_nodes = Ok relevant ->
    forall node, In node relevant ->
                 In node source_nodes
                 /\ node_state node = Ok (VStr "running")
                 /\ returns (_get_node_descriptive_name node)
                 /\ exists d, node = VDict d.
Proof.
  induction source_nodes as [|n rest IH]; simpl; intros relevant H node Hin.
  - injection H as <-. destruct Hin.
  - destruct (py_get n "info" empty_dict) as [info|] eqn:Hinfo; [|discriminate].
    rewrite bind_ok in H.
    destruct (py_get info "props" empty_dict) as [props|]; [|discriminate].
    rewrite bind_ok in H.
    destruct (py_get info "state" VNone) as [state|] eqn:Hstate; [|discriminate].
    rewrite bind_ok in H.
    destruct (_get_node_descriptive_name n) as [nm|] eqn:Hname; [|discriminate].
    rewrite bind_ok in H.
    destruct (_filter_sources rest) as [kept|]; [|discriminate].
    rewrite bind_ok in H.
    destruct (py_eq state (VStr "running")) eqn:Hrun; simpl in H;
      injection H as <-.
    + destruct Hin as [<- | Hin].
      * split; [auto|]. split.
        -- unfold node_state. rewrite Hinfo. step. rewrite Hstate.
           f_equal. apply py_eq_str, Hrun.
        -- split; [unfold returns; eauto|].
           eapply py_get_returns_dict, Hinfo.
      * destruct (IH _ eq_refl node Hin) as (? & ? & ? & ?). auto.
    + destruct (IH _ eq_refl node Hin) as (? & ? & ? & ?). auto.
Qed.



Lemma single_source_outcome source device_freq source_freq :
  returns (_get_node_descriptive_name source) ->
  _is_volume_at_100 source = Ok true ->
  _get_node_sample_rate source = Ok source_freq ->
  check_single_source device_freq source
  = Ok (if truthy source_freq && negb (py_eq device_freq source_freq)
        then RateMismatch else Consistent device_freq).
Proof.
  intros [nm Hname] Hvol Hrate. unfold check_single_source.
  rewrite Hvol. step. simpl negb. cbv iota. rewrite Hrate, Hname. step.
  assert (Hdict : exists d, source = VDict d).
  { unfold _get_node_descriptive_name in Hname.
    destruct (node_info_field source "props") eqn:Hp; [|discriminate].
    eapply node_info_field_dict, Hp. }
  destruct Hdict as [d ->]. rewrite py_get_dict. step.
  destruct (truthy source_freq && negb (py_eq device_freq source_freq));
    reflexivity.
Qed.

Lemma sole_source_named set_iter name snapshot device_freq source :
  reaches_sources set_iter name snapshot device_freq [source] ->
  returns (_get_node_descriptive_name source).
Proof.
  intros (g & target & tid & srcs & _ & _ & _ & _ & _ & _ & _ & _ & _ & Hf).
  apply (filter_sources_kept _ _ Hf source). left. reflexivity.
Qed.

(** C7.  When [run] reaches the rate comparison, with a sole running
    source whose volume is at unity: a source rate that is known (truthy)
    and differs from the target's rate gives [RateMismatch]; an unknown
    source rate ([None]) raises no mismatch and gives [Consistent] with
    the target's rate, as does a source rate equal to the target's. *)
Theorem rate_comparison (set_iter : list value -> list value)
  (name : string) (snapshot device_freq source source_freq : value)
  (Hreach : reaches_sources set_iter name snapshot device_freq [source])
  (Hvolume : _is_volume_at_100 source = Ok true)
  (Hrate : _get_node_sample_rate source = Ok source_freq) :
  (truthy source_freq = true -> py_eq device_freq source_freq = false ->
   run set_iter name (Some snapshot) = Ok RateMismatch)
  /\ (source_freq = VNone ->
      run set_iter name (Some snapshot) = Ok (Consistent device_freq))
  /\ (py_eq device_freq source_freq = true ->
      run set_iter name (Some snapshot) = Ok (Consistent device_freq)).
Proof.
  rewrite (run_at_sources _ _ _ _ _ Hreach). simpl check_sources.
  rewrite (single_source_outcome _ _ _
             (sole_source_named _ _ _ _ _ Hreach) Hvolume Hrate).
  refine (conj _ (conj _ _)).
  - intros -> ->. reflexivity.
  - intros ->. reflexivity.
  - intros ->. rewrite andb_false_r. reflexivity.
Qed.

Lemma rate_comparison_witness :
  run Samples.in_order "usb-dac"
      (Some (VList [Samples.sink; Samples.player 50 44100 "running";
                    Samples.link_elem 60 50 40]))
  = Ok RateMismatch.
Proof.
  eapply (rate_comparison Samples.in_order "usb-dac" _ (VInt 48000)
            (Samples.player 50 44100 "running") (VInt 44100)).
  - do 4 eexists. repeat split; reflexivity.
  - reflexivity.
  - reflexivity.
  - reflexivity.
  - reflexivity.
Defined.

(** C10.  A target whose extracted rate is [0] is handled like a target
    whose rate is unknown: [run] ends with [Error].  A sole running
    source whose extracted rate is [0] never gives [RateMismatch]; with
    its volume at unity the outcome is [Consistent] with the target's
    rate. *)
Theorem zero_rate_is_unknown (set_iter : list value -> list value)
  (name : string) (snapshot : value) :
  (forall g target rate,
      truthy snapshot = true ->
      PipeWireGraph_init snapshot = Ok g ->
      _find_node_by_name g name = Ok target ->
      truthy target = true ->
      _get_node_sample_rate target = Ok rate ->
      rate = VInt 0 \/ rate = VNone ->
      run set_iter name (Some snapshot) = Ok Error)
  /\ (forall device_freq source,
         reaches_sources set_iter name snapshot device_freq [source] ->
         _get_node_sample_rate source = Ok (VInt 0) ->
         run set_iter name (Some snapshot) <> Ok RateMismatch
         /\ (_is_volume_at_100 source = Ok true ->
             run set_iter name (Some snapshot) = Ok (Consistent device_freq))).
Proof.
  split.
  - intros g target rate Hne Hinit Hfind Htarget Hrate Hzero.
    unfold run. simpl _get_pipewire_graph. rewrite Hne, Hinit. step.
    rewrite Hfind. step. rewrite Htarget. simpl negb. cbv iota.
    unfold check_target. rewrite Hrate. step.
    destruct Hzero as [-> | ->]; reflexivity.
  - intros device_freq source Hreach Hrate.
    rewrite (run_at_sources _ _ _ _ _ Hreach). simpl check_sources.
    pose proof (sole_source_named _ _ _ _ _ Hreach) as Hname.
    destruct (_is_volume_at_100 source) as [[]|] eqn:Hvol.
    + rewrite (single_source_outcome _ _ _ Hname Hvol Hrate).
      simpl. split; [discriminate|reflexivity].
    + unfold check_single_source. rewrite Hvol. simpl.
      split; [discriminate|discriminate].
    + unfold check_single_source. rewrite Hvol. simpl.
      split; [discriminate|discriminate].
Qed.

Lemma zero_rate_is_unknown_witness :
  run Samples.in_order "zero"
      (Some (VList [Samples.node_elem 40
                      [("props", VDict [("node.name", VStr "zero.sink")]);
                       ("params", Samples.audio_format 0)]]))
  = Ok Error
  /\ run Samples.in_order "usb-dac"
         (Some (VList [Samples.sink; Samples.player 50 0 "running";
                       Samples.link_elem 60 50 40]))
     = Ok (Consistent (VInt 48000)).
Proof.
  split.
  - eapply (proj1 (zero_rate_is_unknown Samples.in_order "zero" _));
      try reflexivity.
    left. reflexivity.
  - eapply (proj2 (zero_rate_is_unknown Samples.in_order "usb-dac" _)
              (VInt 48000) (Samples.player 50 0 "running")).
    + do 4 eexists. repeat split; reflexivity.
    + reflexivity.
    + reflexivity.
Defined.

(** ** Keys: equality on hashable values is an equivalence *)

Lemma fin_eqb_scale m1 e1 m2 e2 c :
  (c <= e1)%Z -> (c <= e2)%Z ->
  fin_eqb m1 e1 m2 e2 = true
  <-> (m1 * 2 ^ (e1 - c) = m2 * 2 ^ (e2 - c))%Z.
Proof.
  intros H1 H2. unfold fin_eqb. rewrite Z.eqb_eq.
  set (e := Z.min e1 e2).
  assert (He : (c <= e /\ e <= e1 /\ e <= e2)%Z) by (unfold e; lia).
  replace (e1 - c)%Z with ((e1 - e) + (e - c))%Z by lia.
  replace (e2 - c)%Z with ((e2 - e) + (e - c))%Z by lia.
  rewrite !Z.pow_add_r by lia.
  assert (0 < 2 ^ (e - c))%Z by (apply Z.pow_pos_nonneg; lia).
  rewrite !Z.mul_assoc. split.
  - intros ->. reflexivity.
  - intros Heq. apply Z.mul_cancel_r in Heq; [exact Heq|lia].
Qed.

Lemma fin_eqb_refl m e : fin_eqb m e m e = true.
Proof. unfold fin_eqb. apply Z.eqb_refl. Qed.

Lemma fin_eqb_sym m1 e1 m2 e2 : fin_eqb m1 e1 m2 e2 = fin_eqb m2 e2 m1 e1.
Proof. unfold fin_eqb. rewrite (Z.min_comm e1 e2). apply Z.eqb_sym. Qed.

Lemma fin_eqb_trans m1 e1 m2 e2 m3 e3 :
  fin_eqb m1 e1 m2 e2 = true -> fin_eqb m2 e2 m3 e3 = true ->
  fin_eqb m1 e1 m3 e3 = true.
Proof.
  set (c := Z.min e1 (Z.min e2 e3)).
  assert (Hc : (c <= e1 /\ c <= e2 /\ c <= e3)%Z) by (unfold c; lia).
  rewrite (fin_eqb_scale m1 e1 m2 e2 c), (fin_eqb_scale m2 e2 m3 e3 c),
    (fin_eqb_scale m1 e1 m3 e3 c) by lia.
  congruence.
Qed.

Lemma num_eqb_sym a b : num_eqb a b = num_eqb b a.
Proof.
  destruct a, b; simpl; try reflexivity.
  - apply fin_eqb_sym.
  - destruct negative, negative0; reflexivity.
Qed.

Lemma num_eqb_trans a b c :
  num_eqb a b = true -> num_eqb b c = true -> num_eqb a c = true.
Proof.
  destruct a, b, c; simpl; try discriminate.
  - apply fin_eqb_trans.
  - destruct negative, negative0, negative1; simpl; congruence.
Qed.


Lemma py_same_key a b :
  hashable a = true -> hashable b = true -> py_same a b = key_same a b.
Proof.
  destruct a as [|x|x|x|x|x|x], b as [|y|y|y|y|y|y]; try discriminate;
    intros _ _; unfold py_same, key_same; simpl; try reflexivity.
  all: try (destruct x; reflexivity).
Qed.

Lemma py_same_refl a : hashable a = true -> py_same a a = true.
Proof.
  intros H. rewrite py_same_key by assumption.
  destruct a as [|x|x|x|x|x|x]; try discriminate; unfold key_same; simpl.
  - reflexivity.
  - apply fin_eqb_refl.
  - apply fin_eqb_refl.
  - destruct x as [s|s| |s m e]; simpl; try reflexivity;
      try apply fin_eqb_refl. destruct s; reflexivity.
  - apply String.eqb_refl.
Qed.

Lemma py_same_sym a b :
  hashable a = true -> hashable b = true -> py_same a b = py_same b a.
Proof.
  intros Ha Hb. rewrite !py_same_key by assumption. unfold key_same.
  destruct (num_of a) eqn:Na, (num_of b) eqn:Nb; try reflexivity.
  - rewrite (andb_comm (is_nan a)), num_eqb_sym. reflexivity.
  - destruct a, b; try reflexivity. apply String.eqb_sym.
Qed.

Lemma is_nan_num a x : num_of a = Some x -> is_nan a = true -> x = NNan.
Proof.
  destruct a as [| | |f| | |]; simpl; try discriminate.
  destruct f; simpl; try discriminate. congruence.
Qed.

Lemma num_nan_is_nan a : num_of a = Some NNan -> is_nan a = true.
Proof.
  destruct a as [| | |f| | |]; simpl; try discriminate.
  destruct f; simpl; try discriminate. reflexivity.
Qed.

Lemma py_same_trans a b c :
  hashable a = true -> hashable b = true -> hashable c = true ->
  py_same a b = true -> py_same b c = true -> py_same a c = true.
Proof.
  intros Ha Hb Hc. rewrite !py_same_key by assumption. unfold key_same.
  destruct (num_of a) as [x|] eqn:Na, (num_of b) as [y|] eqn:Nb,
    (num_of c) as [z|] eqn:Nc; try discriminate.
  - intros H1 H2.
    apply orb_true_iff in H1 as [H1|H1];
      apply orb_true_iff in H2 as [H2|H2].
    + apply andb_true_iff in H1 as [H1 _], H2 as [_ H2].
      rewrite H1, H2. reflexivity.
    + apply andb_true_iff in H1 as [_ H1].
      rewrite (is_nan_num _ _ Nb H1) in H2. discriminate.
    + apply andb_true_iff in H2 as [H2 _].
      rewrite (is_nan_num _ _ Nb H2) in H1. destruct x; discriminate.
    + rewrite (num_eqb_trans _ _ _ H1 H2). apply orb_true_r.
  - destruct a, b, c; simpl in *; try discriminate; try reflexivity.
    intros H1 H2. apply String.eqb_eq in H1, H2. subst. apply String.eqb_refl.
Qed.

(** ** Index invariants *)

Lemma idx_set_entries k v d p :
  In p (idx_set k v d) ->
  p = (k, v)
  \/ In p d
  \/ exists v0, In (fst p, v0) d /\ py_same (fst p) k = true /\ snd p = v.
Proof.
  induction d as [|[k0 v0] d IH]; simpl.
  - intros [<-|[]]. auto.
  - destruct (py_same k0 k) eqn:Hs; simpl.
    + intros [<-|H]; [|auto]. right. right. exists v0. simpl. auto.
    + intros [<-|H]; [auto|].
      destruct (IH H) as [->|[Hin|(v1 & Hin & Hk & Hv)]]; auto.
      right. right. exists v1. auto.
Qed.

Lemma idx_set_entry_ok tag key item d :
  Forall (entry_ok tag) d ->
  entry_ok tag (key, item) ->
  Forall (entry_ok tag) (idx_set key item d).
Proof.
  intros Hd Hnew. rewrite Forall_forall in *. intros p Hp.
  destruct (idx_set_entries _ _ _ _ Hp) as [->|[Hin|(v0 & Hin & Hk & Hv)]];
    [assumption | auto |].
  destruct Hnew as (Hh & Htag & key' & Hid & Hhk & Hsame). simpl in *.
  destruct (Hd _ Hin) as (Hh0 & _). simpl in Hh0.
  destruct p as [k0 e]. simpl in *. subst e.
  split; [assumption|]. split; [assumption|].
  exists key'. repeat split; try assumption.
  apply (py_same_trans k0 key key'); assumption.
Qed.

Lemma idx_set_keys_distinct key item d :
  keys_distinct d -> keys_distinct (idx_set key item d).
Proof.
  induction d as [|[k0 v0] d IH]; simpl.
  - intros _. split; [intros ? ? []|exact I].
  - intros [Hhead Htail]. destruct (py_same k0 key) eqn:Hs; simpl.
    + split; assumption.
    + split; [|auto]. intros k' v' Hin.
      destruct (idx_set_entries _ _ _ _ Hin) as [Heq|[Hold|(v1 & Hold & _)]].
      * injection Heq as -> _. exact Hs.
      * eapply Hhead, Hold.
      * eapply Hhead, Hold.
Qed.

Lemma index_by_type_invariant tag items :
  forall acc d,
    index_by_type tag items acc = Ok d ->
    Forall (entry_ok tag) acc -> keys_distinct acc ->
    Forall (entry_ok tag) d /\ keys_distinct d.
Proof.
  induction items as [|item rest IH]; simpl; intros acc d H Hacc Hdist.
  - injection H as <-. auto.
  - destruct (py_get item "type" (VStr "")) as [ty|] eqn:Hty; [|discriminate].
    rewrite bind_ok in H.
    destruct (py_contains tag ty) as [[]|] eqn:Hsel; try discriminate;
      rewrite bind_ok in H; [|eauto].
    destruct (py_getitem item "id") as [key|] eqn:Hid; [|discriminate].
    rewrite bind_ok in H.
    destruct (hashable key) eqn:Hh; [|discriminate].
    apply (IH _ _ H).
    + apply idx_set_entry_ok; [assumption|].
      split; [exact Hh|]. split; [exists ty; auto|].
      exists key. auto using py_same_refl.
    + apply idx_set_keys_distinct, Hdist.
Qed.

Lemma idx_get_set key v d k :
  Forall (fun p => hashable (fst p) = true) d ->
  hashable key = true -> hashable k = true ->
  idx_get k (idx_set key v d)
  = if py_same key k then Some v else idx_get k d.
Proof.
  intros Hd Hkey Hk. induction d as [|[k0 v0] d IH]; simpl.
  - reflexivity.
  - inversion Hd as [|? ? Hk0 Hd']; subst. simpl in Hk0.
    destruct (py_same k0 key) eqn:H0; simpl.
    + destruct (py_same key k) eqn:H1.
      * rewrite (py_same_trans k0 key k) by assumption. reflexivity.
      * destruct (py_same k0 k) eqn:H2; [|reflexivity].
        rewrite (py_same_sym k0 key) in H0 by assumption.
        rewrite (py_same_trans key k0 k) in H1 by assumption. discriminate.
    + destruct (py_same k0 k) eqn:H2; [|apply IH, Hd'].
      destruct (py_same key k) eqn:H1; [|reflexivity].
      rewrite (py_same_sym key k) in H1 by assumption.
      rewrite (py_same_trans k0 k key) in H0 by assumption. discriminate.
Qed.

Lemma entries_hashable tag d :
  Forall (entry_ok tag) d -> Forall (fun p => hashable (fst p) = true) d.
Proof. apply Forall_impl. intros p (H & _). exact H. Qed.

Lemma index_by_type_lookup tag k items :
  hashable k = true ->
  forall acc d,
    index_by_type tag items acc = Ok d ->
    Forall (entry_ok tag) acc ->
    idx_get k d
    = fold_left (fun found item => if selects tag k item then Some item
                                   else found)
                items (idx_get k acc).
Proof.
  intros Hk. induction items as [|item rest IH]; simpl; intros acc d H Hacc.
  - injection H as <-. reflexivity.
  - unfold selects at 2.
    destruct (py_get item "type" (VStr "")) as [ty|] eqn:Hty; [|discriminate].
    rewrite bind_ok in H.
    destruct (py_contains tag ty) as [[]|] eqn:Hsel; try discriminate;
      rewrite bind_ok in H; [|eauto].
    destruct (py_getitem item "id") as [key|] eqn:Hid; [|discriminate].
    rewrite bind_ok in H.
    destruct (hashable key) eqn:Hh; [|discriminate].
    rewrite (IH _ _ H).
    + rewrite idx_get_set by eauto using entries_hashable. reflexivity.
    + apply idx_set_entry_ok; [assumption|].
      split; [exact Hh|]. split; [exists ty; auto|].
      exists key. auto using py_same_refl.
Qed.

Lemma idx_get_entry k d e :
  idx_get k d = Some e -> exists k0, In (k0, e) d /\ py_same k0 k = true.
Proof.
  induction d as [|[k0 v0] d IH]; simpl; [discriminate|].
  destruct (py_same k0 k) eqn:Hs.
  - intros [= <-]. eauto.
  - intros H. destruct (IH H) as (k1 & Hin & Hk). eauto.
Qed.

Lemma idx_get_own_entry d :
  keys_distinct d ->
  Forall (fun p => hashable (fst p) = true) d ->
  forall k e q, In (k, e) d -> hashable q = true -> py_same k q = true ->
                idx_get q d = Some e.
Proof.
  induction d as [|[k0 v0] d IH]; intros Hdist Hh k e q Hin Hq Hs.
  - destruct Hin.
  - simpl in Hdist. destruct Hdist as [Hhead Htail].
    inversion Hh as [|p l Hk0 Hh']; subst. simpl in Hk0. simpl.
    destruct Hin as [Heq|Hin].
    + injection Heq as -> ->. rewrite Hs. reflexivity.
    + assert (Hk : hashable k = true).
      { rewrite Forall_forall in Hh'. apply (Hh' (k, e) Hin). }
      destruct (py_same k0 q) eqn:H0; [|eauto].
      pose proof (Hhead k e Hin) as Hne.
      rewrite (py_same_sym k q) in Hs by assumption.
      rewrite (py_same_trans k0 q k) in Hne by assumption. discriminate.
Qed.

Lemma graph_init_parts snapshot g :
  PipeWireGraph_init snapshot = Ok g ->
  exists items, py_iter snapshot = Ok items
                /\ index_by_type "Node" items [] = Ok (nodes g)
                /\ index_by_type "Link" items [] = Ok (links g).
Proof.
  unfold PipeWireGraph_init. intros H.
  destruct (py_iter snapshot) as [items|]; [|discriminate].
  rewrite bind_ok in H.
  destruct (index_by_type "Node" items []) as [ns|] eqn:Hn; [|discriminate].
  rewrite !bind_ok in H.
  destruct (index_by_type "Link" items []) as [ls|] eqn:Hl; [|discriminate].
  rewrite bind_ok in H. injection H as <-. exists items. simpl. auto.
Qed.

Lemma graph_init_invariant snapshot g :
  PipeWireGraph_init snapshot = Ok g ->
  (Forall (entry_ok "Node") (nodes g) /\ keys_distinct (nodes g))
  /\ (Forall (entry_ok "Link") (links g) /\ keys_distinct (links g)).
Proof.
  intros H. destruct (graph_init_parts _ _ H) as (items & _ & Hn & Hl).
  split; eapply index_by_type_invariant; eauto; exact I.
Qed.

(** X1.  Looking an identity up in an index gives the last record of the dump
    that carries the tag and that identity, and nothing when there is no
    such record. *)
Theorem index_lookup_is_last_record (snapshot : value) (items : list value)
  (g : PipeWireGraph) (k : value)
  (Hitems : py_iter snapshot = Ok items)
  (Hinit : PipeWireGraph_init snapshot = Ok g)
  (Hkey : hashable k = true) :
  idx_get k (nodes g) = last_selected "Node" k items
  /\ idx_get k (links g) = last_selected "Link" k items.
Proof.
  destruct (graph_init_parts _ _ Hinit) as (items' & Hitems' & Hn & Hl).
  rewrite Hitems in Hitems'. injection Hitems' as <-.
  split; unfold last_selected;
    erewrite index_by_type_lookup by (eauto; constructor); reflexivity.
Qed.

Lemma index_lookup_is_last_record_witness :
  let first := VDict [("id", VInt 1); ("type", VStr "PipeWire:Interface:Node");
                      ("info", VDict [("state", VStr "idle")])] in
  let second := VDict [("id", Samples.f64 1 0);
                       ("type", VStr "PipeWire:Interface:Node")] in
  idx_get (VInt 1) [(VInt 1, second)] = Some second
  /\ idx_get (VInt 1) [] = None.
Proof.
  intros first second.
  exact (index_lookup_is_last_record (VList [first; second]) [first; second]
           (mkGraph [(VInt 1, second)] []) (VInt 1) eq_refl eq_refl eq_refl).
Defined.

Lemma entry_value_dict tag k e :
  entry_ok tag (k, e) -> truthy e = true /\ exists d, e = VDict d.
Proof.
  intros (_ & _ & key & Hid & _). simpl in Hid.
  destruct e as [| | | | | |d]; try discriminate.
  destruct d; [discriminate|]. split; [reflexivity|eauto].
Qed.

Lemma index_values_nodup tag d :
  Forall (entry_ok tag) d -> keys_distinct d -> NoDup (idx_values d).
Proof.
  induction d as [|[k0 v0] d IH]; simpl; intros Hok Hdist.
  - constructor.
  - inversion Hok as [|p l H0 Hok']; subst. destruct Hdist as [Hhead Htail].
    constructor; [|auto].
    intros Hin. apply in_map_iff in Hin as ([k1 v1] & Hv & Hin).
    simpl in Hv. subst v1.
    rewrite Forall_forall in Hok'. pose proof (Hok' _ Hin) as H1.
    destruct H0 as (Hh0 & _ & key0 & Hid0 & Hk0 & Hs0).
    destruct H1 as (Hh1 & _ & key1 & Hid1 & Hk1 & Hs1). simpl in *.
    rewrite Hid0 in Hid1. injection Hid1 as <-.
    rewrite (py_same_sym k1 key0) in Hs1 by assumption.
    pose proof (Hhead k1 v0 Hin) as Hne.
    rewrite (py_same_trans k0 key0 k1) in Hne by assumption. discriminate.
Qed.

Lemma index_nodes_truthy snapshot g e :
  PipeWireGraph_init snapshot = Ok g ->
  In e (idx_values (nodes g)) -> truthy e = true.
Proof.
  intros Hinit Hin. destruct (graph_init_invariant _ _ Hinit) as [[Hn _] _].
  apply in_map_iff in Hin as ([k v] & Hv & Hin). simpl in Hv. subst v.
  rewrite Forall_forall in Hn. apply (entry_value_dict _ _ _ (Hn _ Hin)).
Qed.

(** X2.  Every element of an index is a non-empty record that is found again
    under its own "id", and no element occurs twice in an index. *)
Theorem index_entries_found_by_id (snapshot : value) (g : PipeWireGraph)
  (Hinit : PipeWireGraph_init snapshot = Ok g) :
  (forall e, In e (idx_values (nodes g)) ->
             truthy e = true
             /\ exists key, py_getitem e "id" = Ok key
                            /\ idx_get key (nodes g) = Some e)
  /\ (forall e, In e (idx_values (links g)) ->
                truthy e = true
                /\ exists key, py_getitem e "id" = Ok key
                               /\ idx_get key (links g) = Some e)
  /\ NoDup (idx_values (nodes g))
  /\ NoDup (idx_values (links g)).
Proof.
  destruct (graph_init_invariant _ _ Hinit) as [[Hn Dn] [Hl Dl]].
  assert (Hfound : forall tag d,
             Forall (entry_ok tag) d -> keys_distinct d ->
             forall e, In e (idx_values d) ->
                       truthy e = true
                       /\ exists key, py_getitem e "id" = Ok key
                                      /\ idx_get key d = Some e).
  { intros tag d Hok Hdist e Hin.
    apply in_map_iff in Hin as ([k v] & Hv & Hin). simpl in Hv. subst v.
    pose proof Hok as Hall. rewrite Forall_forall in Hall.
    pose proof (Hall _ Hin) as Hentry.
    split; [apply (entry_value_dict _ _ _ Hentry)|].
    destruct Hentry as (Hk & _ & key & Hid & Hkey & Hsame). simpl in *.
    exists key. split; [exact Hid|].
    eapply idx_get_own_entry; eauto using entries_hashable. }
  refine (conj _ (conj _ (conj _ _))).
  - exact (Hfound _ _ Hn Dn).
  - exact (Hfound _ _ Hl Dl).
  - exact (index_values_nodup _ _ Hn Dn).
  - exact (index_values_nodup _ _ Hl Dl).
Qed.

Lemma index_entries_found_by_id_witness :
  idx_get (VInt 40) [(VInt 40, Samples.sink)] = Some Samples.sink.
Proof.
  destruct (index_entries_found_by_id
              (VList [Samples.sink; Samples.link_elem 60 50 40])
              (mkGraph [(VInt 40, Samples.sink)]
                       [(VInt 60, Samples.link_elem 60 50 40)]) eq_refl)
    as (Hnodes & _).
  destruct (Hnodes Samples.sink (or_introl eq_refl)) as (_ & key & Hid & Hget).
  injection Hid as <-. exact Hget.
Defined.

(** ** Target lookup and source filter *)

Lemma find_first_named_step name node rest :
  find_first_named name (node :: rest)
  = (hit <- name_test name node ;;
     if hit then Ok node else find_first_named name rest).
Proof.
  simpl. unfold name_test, raw_name.
  destruct (node_info_field node "props") as [props|]; [|reflexivity].
  rewrite !bind_ok.
  destruct (py_get props "node.name" (VStr "")); reflexivity.
Qed.

Lemma find_first_named_cases name candidates found :
  find_first_named name candidates = Ok found ->
  (exists before after,
      candidates = before ++ found :: after
      /\ name_test name found = Ok true
      /\ forall node, In node before -> name_test name node = Ok false)
  \/ (found = VNone
      /\ forall node, In node candidates -> name_test name node = Ok false).
Proof.
  revert found. induction candidates as [|node rest IH]; intros found Hfind.
  - injection Hfind as <-. right. split; [reflexivity|]. intros ? [].
  - rewrite find_first_named_step in Hfind.
    destruct (name_test name node) as [[]|] eqn:Htest; try discriminate;
      rewrite bind_ok in Hfind.
    + injection Hfind as <-. left. exists [], rest.
      repeat split; [exact Htest|]. intros ? [].
    + destruct (IH _ Hfind) as [(before & after & -> & Hhit & Hmiss)|[-> Hall]].
      * left. exists (node :: before), after. repeat split; [exact Hhit|].
        intros n [<-|Hn]; auto.
      * right. split; [reflexivity|]. intros n [<-|Hn]; auto.
Qed.

(** X3.  [_find_node_by_name] returns the first node of the index whose
    raw name contains the target: every node before it was tested and did
    not match.  It returns [None] only when every node was tested and
    none matched. *)
Theorem find_node_first_match (g : PipeWireGraph) (name : string)
  (found : value)
  (Hfind : _find_node_by_name g name = Ok found) :
  (exists before after,
      idx_values (nodes g) = before ++ found :: after
      /\ name_test name found = Ok true
      /\ forall node, In node before -> name_test name node = Ok false)
  \/ (found = VNone
      /\ forall node, In node (idx_values (nodes g)) ->
                      name_test name node = Ok false).
Proof. apply find_first_named_cases, Hfind. Qed.

Lemma find_node_first_match_witness :
  name_test "usb-dac" Samples.sink = Ok true.
Proof.
  destruct (find_node_first_match
              (mkGraph [(VInt 50, Samples.player 50 44100 "running");
                        (VInt 40, Samples.sink); (VInt 41, Samples.sink)] [])
              "usb-dac" Samples.sink eq_refl)
    as [(before & after & _ & Hhit & _)|[Hnone _]].
  - exact Hhit.
  - discriminate Hnone.
Defined.

Lemma is_substring_empty s : is_substring "" s = true.
Proof. destruct s; reflexivity. Qed.

(** X4.  With the empty target substring the lookup takes the first node of
    the index, provided the raw name of that node is a string; a node
    without a name counts, its raw name being the empty string. *)
Theorem empty_target_matches_first (g : PipeWireGraph) (node : value)
  (rest : list value) (s : string)
  (Hnodes : idx_values (nodes g) = node :: rest)
  (Hname : raw_name node = Ok (VStr s)) :
  _find_node_by_name g "" = Ok node.
Proof.
  unfold _find_node_by_name. rewrite Hnodes, find_first_named_step.
  unfold name_test. rewrite Hname, bind_ok. simpl py_contains.
  rewrite is_substring_empty. reflexivity.
Qed.

Lemma empty_target_matches_first_witness :
  _find_node_by_name
    (mkGraph [(VInt 9, VDict [("id", VInt 9)]); (VInt 40, Samples.sink)] []) ""
  = Ok (VDict [("id", VInt 9)]).
Proof.
  eapply empty_target_matches_first; reflexivity.
Defined.

Lemma filter_sources_cons node rest :
  _filter_sources (node :: rest)
  = (info <- py_get node "info" empty_dict ;;
     props <- py_get info "props" empty_dict ;;
     state <- py_get info "state" VNone ;;
     log_name <- _get_node_descriptive_name node ;;
     kept <- _filter_sources rest ;;
     if negb (py_eq state (VStr "running")) then Ok kept
     else Ok (node :: kept)).
Proof. reflexivity. Qed.

Lemma filter_sources_head node :
  (name_resolves node = true
   /\ exists state,
        node_state node = Ok state
        /\ forall rest,
             _filter_sources (node :: rest)
             = (kept <- _filter_sources rest ;;
                if negb (py_eq state (VStr "running")) then Ok kept
                else Ok (node :: kept)))
  \/ (name_resolves node = false
      /\ forall rest, _filter_sources (node :: rest) = Raise AttributeError).
Proof.
  destruct node as [| | | | | |nd]; try (right; split; reflexivity).
  destruct (py_get (VDict nd) "info" empty_dict) as [info|] eqn:Hinfo;
    [|simpl in Hinfo; destruct (dict_get "info" nd); discriminate].
  destruct info as [| | | | | |id];
    try (right; split;
         [unfold name_resolves, _get_node_descriptive_name, node_info_field;
          rewrite Hinfo; reflexivity
         |intros rest; rewrite filter_sources_cons, Hinfo; reflexivity]).
  destruct (py_get (VDict id) "props" empty_dict) as [props|] eqn:Hprops;
    [|simpl in Hprops; destruct (dict_get "props" id); discriminate].
  assert (Hfield : node_info_field (VDict nd) "props" = Ok props).
  { unfold node_info_field. rewrite Hinfo, bind_ok. exact Hprops. }
  destruct props as [| | | | | |pd];
    try (right; split;
         [unfold name_resolves, _get_node_descriptive_name;
          rewrite Hfield; reflexivity
         |intros rest; rewrite filter_sources_cons, Hinfo, bind_ok, Hprops,
            bind_ok, py_get_field, bind_ok;
          unfold _get_node_descriptive_name; rewrite Hfield; reflexivity]).
  left. destruct (descriptive_name_total _ _ Hfield) as [name Hname].
  split; [unfold name_resolves; rewrite Hname; reflexivity|].
  exists (field id "state"). split.
  - unfold node_state. rewrite Hinfo, bind_ok. apply py_get_field.
  - intros rest.
    rewrite filter_sources_cons, Hinfo, bind_ok, Hprops, bind_ok,
      py_get_field, bind_ok, Hname, bind_ok. reflexivity.
Qed.

Lemma filter_sources_eq (source_nodes : list value) :
  _filter_sources source_nodes
  = if forallb name_resolves source_nodes
    then Ok (filter is_running source_nodes)
    else Raise AttributeError.
Proof.
  induction source_nodes as [|node rest IH]; [reflexivity|].
  destruct (filter_sources_head node)
    as [(Hres & state & Hstate & Hstep)|(Hres & Hstep)];
    rewrite Hstep; simpl forallb; rewrite Hres; [|reflexivity].
  rewrite IH. simpl andb.
  destruct (forallb name_resolves rest); [|reflexivity].
  rewrite bind_ok.
  change (filter is_running (node :: rest))
    with (if is_running node then node :: filter is_running rest
          else filter is_running rest).
  assert (Hrun : is_running node = py_eq state (VStr "running"))
    by (unfold is_running; rewrite Hstate; reflexivity).
  rewrite Hrun. destruct (py_eq state (VStr "running")); reflexivity.
Qed.

(** X5.  [_filter_sources] returns exactly when the descriptive name of
    every node of the list can be resolved, and then it returns, in their
    order, the nodes whose state is "running"; otherwise it raises
    [AttributeError], whatever the states are. *)
Theorem filter_sources_is_filter (source_nodes : list value) :
  (forallb name_resolves source_nodes = true ->
   _filter_sources source_nodes = Ok (filter is_running source_nodes))
  /\ (forallb name_resolves source_nodes = false ->
      _filter_sources source_nodes = Raise AttributeError)
  /\ (forall relevant,
         _filter_sources source_nodes = Ok relevant ->
         relevant = filter is_running source_nodes
         /\ forall node, In node source_nodes ->
                         returns (_get_node_descriptive_name node)).
Proof.
  rewrite filter_sources_eq.
  destruct (forallb name_resolves source_nodes) eqn:Hall.
  - refine (conj (fun _ => eq_refl) (conj _ _)); [discriminate|].
    intros relevant [= <-]. split; [reflexivity|].
    intros node Hin. rewrite forallb_forall in Hall.
    specialize (Hall node Hin). unfold name_resolves in Hall.
    destruct (_get_node_descriptive_name node); [|discriminate].
    unfold returns. eauto.
  - refine (conj _ (conj (fun _ => eq_refl) _)); discriminate.
Qed.

Lemma filter_sources_is_filter_witness :
  _filter_sources [Samples.player 50 44100 "running";
                   Samples.player 51 96000 "suspended";
                   Samples.player 52 48000 "running"]
  = Ok [Samples.player 50 44100 "running"; Samples.player 52 48000 "running"].
Proof.
  apply (proj1 (filter_sources_is_filter
                  [Samples.player 50 44100 "running";
                   Samples.player 51 96000 "suspended";
                   Samples.player 52 48000 "running"])).
  reflexivity.
Defined.

(** ** Upstream sources *)

Lemma existsb_false {A : Type} (f : A -> bool) (l : list A) :
  existsb f l = false -> forall y, In y l -> f y = false.
Proof.
  induction l as [|x l IH]; simpl; intros H y Hy; [destruct Hy|].
  apply orb_false_elim in H as [Hx Hl]. destruct Hy as [<-|Hy]; auto.
Qed.

Lemma set_add_spec x s :
  hashable x = true ->
  (forall y, In y s -> In y (set_add x s))
  /\ (exists x', In x' (set_add x s) /\ py_same x' x = true)
  /\ (forall y, In y (set_add x s) -> In y s \/ y = x)
  /\ (members_distinct (rev s) -> members_distinct (rev (set_add x s))).
Proof.
  intros Hx. unfold set_add.
  destruct (existsb (fun y => py_same y x) s) eqn:He.
  - apply existsb_exists in He as (x' & Hin & Hs).
    repeat split; eauto.
  - repeat split.
    + intros y Hy. apply in_or_app. auto.
    + exists x. split; [apply in_or_app; right; left; reflexivity|].
      apply py_same_refl, Hx.
    + intros y Hy. apply in_app_or in Hy as [Hy|[<-|[]]]; auto.
    + intros Hd. rewrite rev_app_distr. simpl. split; [|exact Hd].
      intros y Hy. apply in_rev in Hy.
      apply (existsb_false _ _ He y Hy).
Qed.

Lemma collect_source_ids_cons target_id link rest acc :
  collect_source_ids target_id (link :: rest) acc
  = (info <- py_get link "info" empty_dict ;;
     input <- py_get info "input-node-id" VNone ;;
     if py_eq input target_id then
       output <- py_get info "output-node-id" VNone ;;
       if hashable output
       then collect_source_ids target_id rest (set_add output acc)
       else Raise TypeError
     else collect_source_ids target_id rest acc).
Proof. reflexivity. Qed.

Lemma collect_source_ids_spec target_id link_list :
  forall acc ids,
    collect_source_ids target_id link_list acc = Ok ids ->
    Forall (fun o => hashable o = true) acc ->
    members_distinct (rev acc) ->
    Forall (fun o => hashable o = true) ids
    /\ members_distinct (rev ids)
    /\ (forall o, In o ids ->
                  In o acc
                  \/ exists link, In link link_list /\ feeds target_id link o)
    /\ (forall o, In o acc -> In o ids)
    /\ (forall link o, In link link_list -> feeds target_id link o ->
                       hashable o = true
                       /\ exists o', In o' ids /\ py_same o' o = true).
Proof.
  induction link_list as [|link rest IH]; intros acc ids H Hh Hd.
  - injection H as <-.
    refine (conj Hh (conj Hd (conj _ (conj _ _)))); auto.
    intros ? ? [].
  - rewrite collect_source_ids_cons in H.
    destruct (py_get link "info" empty_dict) as [info|] eqn:Hinfo;
      [|discriminate].
    rewrite bind_ok in H.
    destruct (py_get info "input-node-id" VNone) as [input|] eqn:Hin;
      [|discriminate].
    rewrite bind_ok in H.
    destruct (py_eq input target_id) eqn:Heq.
    + destruct (py_get info "output-node-id" VNone) as [output|] eqn:Hout;
        [|discriminate].
      rewrite bind_ok in H.
      destruct (hashable output) eqn:Hho; [|discriminate].
      destruct (set_add_spec output acc Hho) as (Hmono & Hrep & Hnew & Hdist).
      assert (Hh' : Forall (fun o => hashable o = true) (set_add output acc)).
      { rewrite Forall_forall in *. intros y Hy.
        destruct (Hnew y Hy) as [Hy'| ->]; auto. }
      destruct (IH _ _ H Hh' (Hdist Hd))
        as (Hids & Hdids & Hsound & Hkeep & Hcomp).
      assert (Hfeeds : feeds target_id link output).
      { exists info, input. auto. }
      refine (conj Hids (conj Hdids (conj _ (conj _ _)))).
      * intros o Ho. destruct (Hsound o Ho) as [Hacc|(l & Hl & Hf)].
        -- destruct (Hnew o Hacc) as [Hold| ->]; [auto|].
           right. exists link. split; [left; reflexivity|exact Hfeeds].
        -- right. exists l. split; [right; exact Hl|exact Hf].
      * intros o Ho. auto.
      * intros l o [<-|Hl] Hf.
        -- destruct Hf as (info' & input' & Hi' & Hin' & _ & Hout').
           rewrite Hinfo in Hi'. injection Hi' as <-.
           rewrite Hout in Hout'. injection Hout' as <-.
           split; [exact Hho|].
           destruct Hrep as (x' & Hx' & Hs). exists x'. auto.
        -- apply (Hcomp l o Hl Hf).
    + destruct (IH _ _ H Hh Hd) as (Hids & Hdids & Hsound & Hkeep & Hcomp).
      refine (conj Hids (conj Hdids (conj _ (conj Hkeep _)))).
      * intros o Ho. destruct (Hsound o Ho) as [Hacc|(l & Hl & Hf)]; [auto|].
        right. exists l. split; [right; exact Hl|exact Hf].
      * intros l o [<-|Hl] Hf; [|apply (Hcomp l o Hl Hf)].
        destruct Hf as (info' & input' & Hi' & Hin' & Heq' & _).
        rewrite Hinfo in Hi'. injection Hi' as <-.
        rewrite Hin in Hin'. injection Hin' as <-. congruence.
Qed.

Lemma idx_get_congr d a b :
  Forall (fun p => hashable (fst p) = true) d ->
  hashable a = true -> hashable b = true -> py_same a b = true ->
  idx_get a d = idx_get b d.
Proof.
  intros Hd Ha Hb Hs. induction d as [|[k0 v0] d IH]; simpl; [reflexivity|].
  inversion Hd as [|p l Hk0 Hd']; subst. simpl in Hk0.
  destruct (py_same k0 a) eqn:H1.
  - rewrite (py_same_trans k0 a b) by assumption. reflexivity.
  - destruct (py_same k0 b) eqn:H2; [|auto].
    rewrite (py_same_sym a b) in Hs by assumption.
    rewrite (py_same_trans k0 b a) in H1 by assumption. discriminate.
Qed.

Lemma idx_get_one_identity tag d a b n :
  Forall (entry_ok tag) d ->
  hashable a = true -> hashable b = true ->
  idx_get a d = Some n -> idx_get b d = Some n -> py_same b a = true.
Proof.
  intros Hok Ha Hb Hga Hgb. rewrite Forall_forall in Hok.
  destruct (idx_get_entry _ _ _ Hga) as (k1 & Hin1 & Hs1).
  destruct (idx_get_entry _ _ _ Hgb) as (k2 & Hin2 & Hs2).
  destruct (Hok _ Hin1) as (Hh1 & _ & key1 & Hid1 & Hk1 & Hsk1).
  destruct (Hok _ Hin2) as (Hh2 & _ & key2 & Hid2 & Hk2 & Hsk2).
  simpl in *. rewrite Hid1 in Hid2. injection Hid2 as <-.
  apply (py_same_trans b k2 a); try assumption.
  - rewrite py_same_sym by assumption. exact Hs2.
  - apply (py_same_trans k2 key1 a); try assumption.
    apply (py_same_trans key1 k1 a); try assumption.
    rewrite py_same_sym by assumption. exact Hsk1.
Qed.

Lemma resolve_ids_in g ids n :
  In n (resolve_ids g ids)
  <-> exists node_id, In node_id ids /\ idx_get node_id (nodes g) = Some n.
Proof.
  unfold resolve_ids. rewrite in_flat_map. split.
  - intros (x & Hx & Hn). exists x. split; [exact Hx|].
    destruct (idx_get x (nodes g)); [|destruct Hn].
    destruct Hn as [<-|[]]. reflexivity.
  - intros (x & Hx & Hg). exists x. split; [exact Hx|].
    rewrite Hg. left. reflexivity.
Qed.

Lemma resolve_ids_nodup g ids :
  Forall (entry_ok "Node") (nodes g) ->
  Forall (fun o => hashable o = true) ids ->
  members_distinct ids ->
  NoDup (resolve_ids g ids).
Proof.
  intros Hok. induction ids as [|x older IH]; simpl; intros Hh Hd.
  - constructor.
  - inversion Hh as [|? ? Hx Hh']; subst. destruct Hd as [Hnew Hd].
    specialize (IH Hh' Hd).
    destruct (idx_get x (nodes g)) as [n|] eqn:Hg; [|exact IH].
    simpl. constructor; [|exact IH].
    intros Hin. apply resolve_ids_in in Hin as (y & Hy & Hgy).
    assert (Hhy : hashable y = true)
      by (rewrite Forall_forall in Hh'; auto).
    pose proof (Hnew y Hy) as Hne.
    rewrite (idx_get_one_identity _ _ _ _ _ Hok Hx Hhy Hg Hgy) in Hne.
    discriminate.
Qed.

(** X6.  The upstream nodes of a target are exactly the nodes of the index
    found under the output identity of some link whose input side is the
    target: a link whose output identity is not in the node index adds
    nothing, a target without inbound links has no upstream node, and a
    node reached by several links is listed once. *)
Theorem connected_sources_exact (set_iter : list value -> list value)
  (snapshot : value) (g : PipeWireGraph) (target_id : value)
  (source_nodes : list value)
  (Hiter : forall l, Permutation (set_iter l) l)
  (Hinit : PipeWireGraph_init snapshot = Ok g)
  (Hsources : _get_connected_source_nodes set_iter g target_id
              = Ok source_nodes) :
  (forall node,
      In node source_nodes
      <-> exists link out,
            In link (idx_values (links g))
            /\ feeds target_id link out
            /\ idx_get out (nodes g) = Some node)
  /\ NoDup source_nodes.
Proof.
  destruct (graph_init_invariant _ _ Hinit) as [[Hn _] _].
  unfold _get_connected_source_nodes in Hsources.
  destruct (collect_source_ids target_id (idx_values (links g)) [])
    as [ids|] eqn:Hids; [|discriminate].
  rewrite bind_ok in Hsources. injection Hsources as <-.
  destruct (collect_source_ids_spec _ _ _ _ Hids (Forall_nil _) I)
    as (Hh & Hd & Hsound & _ & Hcomp).
  split.
  - intros node. rewrite resolve_ids_in. split.
    + intros (node_id & Hin & Hget).
      apply (Permutation_in _ (Hiter ids)) in Hin.
      destruct (Hsound _ Hin) as [[]|(link & Hl & Hf)]. eauto.
    + intros (link & out & Hl & Hf & Hget).
      destruct (Hcomp _ _ Hl Hf) as (Hho & o' & Ho' & Hs).
      exists o'. split.
      * apply (Permutation_in _ (Permutation_sym (Hiter ids))), Ho'.
      * rewrite <- Hget. rewrite Forall_forall in Hh.
        apply idx_get_congr; eauto using entries_hashable.
  - apply (Permutation_NoDup (l := resolve_ids g (rev ids))).
    + unfold resolve_ids. apply Permutation_flat_map.
      rewrite (Hiter ids). apply Permutation_sym, Permutation_rev.
    + apply resolve_ids_nodup; [exact Hn| |exact Hd].
      apply Forall_rev, Hh.
Qed.

Lemma connected_sources_exact_witness :
  let snapshot :=
    VList [Samples.sink; Samples.player 50 44100 "running";
           Samples.link_elem 60 50 40; Samples.link_elem 61 50 40;
           Samples.link_elem 62 77 40] in
  NoDup [Samples.player 50 44100 "running"].
Proof.
  intro snapshot.
  refine (proj2 (connected_sources_exact Samples.in_order snapshot _ (VInt 40)
                   [Samples.player 50 44100 "running"] _ eq_refl eq_refl)).
  intros l. apply Permutation_refl.
Defined.

(** ** Order of the source set *)

Lemma forallb_permutation {A : Type} (f : A -> bool) (l l' : list A) :
  Permutation l l' -> forallb f l = forallb f l'.
Proof.
  induction 1; simpl.
  - reflexivity.
  - rewrite IHPermutation. reflexivity.
  - destruct (f x), (f y); reflexivity.
  - congruence.
Qed.

Lemma filter_permutation {A : Type} (f : A -> bool) (l l' : list A) :
  Permutation l l' -> Permutation (filter f l) (filter f l').
Proof.
  induction 1; simpl.
  - constructor.
  - destruct (f x); auto.
  - destruct (f x), (f y); auto using Permutation_refl. constructor.
  - eapply Permutation_trans; eassumption.
Qed.

Lemma check_sources_permutation device_freq relevant relevant' :
  Permutation relevant relevant' ->
  check_sources device_freq relevant = check_sources device_freq relevant'.
Proof.
  intros Hp. pose proof (Permutation_length Hp) as Hlen.
  destruct relevant as [|s [|s' more]].
  - apply Permutation_nil in Hp. subst. reflexivity.
  - apply Permutation_length_1_inv in Hp. subst. reflexivity.
  - destruct relevant' as [|t [|t' more']]; try discriminate. reflexivity.
Qed.

(** X7.  The classification does not depend on the order in which the set of
    source identities is walked: two walks of the same members give the
    same outcome, and the same exception when [run] raises. *)
Theorem run_independent_of_set_order
  (set_iter set_iter' : list value -> list value) (name : string)
  (acquired : option value)
  (Hiter : forall l, Permutation (set_iter l) l)
  (Hiter' : forall l, Permutation (set_iter' l) l) :
  run set_iter name acquired = run set_iter' name acquired.
Proof.
  unfold run. destruct (negb (truthy (_get_pipewire_graph acquired)));
    [reflexivity|].
  destruct (PipeWireGraph_init (_get_pipewire_graph acquired)) as [g|];
    [|reflexivity].
  rewrite !bind_ok.
  destruct (_find_node_by_name g name) as [target|]; [|reflexivity].
  rewrite !bind_ok. destruct (negb (truthy target)); [reflexivity|].
  unfold check_target.
  destruct (_get_node_sample_rate target) as [device_freq|]; [|reflexivity].
  rewrite !bind_ok. destruct (negb (truthy device_freq)); [reflexivity|].
  destruct (_is_volume_at_100 target) as [ok|]; [|reflexivity].
  rewrite !bind_ok. destruct (negb ok); [reflexivity|].
  destruct (py_getitem target "id") as [target_id|]; [|reflexivity].
  rewrite !bind_ok. unfold _get_connected_source_nodes.
  destruct (collect_source_ids target_id (idx_values (links g)) [])
    as [ids|]; [|reflexivity].
  rewrite !bind_ok.
  assert (Hp : Permutation (resolve_ids g (set_iter ids))
                           (resolve_ids g (set_iter' ids))).
  { unfold resolve_ids. apply Permutation_flat_map.
    rewrite (Hiter ids), (Hiter' ids). reflexivity. }
  rewrite !filter_sources_eq.
  rewrite (forallb_permutation _ _ _ Hp).
  destruct (forallb name_resolves (resolve_ids g (set_iter' ids)));
    [|reflexivity].
  rewrite !bind_ok.
  apply check_sources_permutation, filter_permutation, Hp.
Qed.

Lemma run_independent_of_set_order_witness :
  run (@rev value) "usb-dac"
      (Some (VList [Samples.sink; Samples.player 50 44100 "running";
                    Samples.player 51 96000 "idle";
                    Samples.link_elem 60 50 40; Samples.link_elem 61 51 40]))
  = run Samples.in_order "usb-dac"
      (Some (VList [Samples.sink; Samples.player 50 44100 "running";
                    Samples.player 51 96000 "idle";
                    Samples.link_elem 60 50 40; Samples.link_elem 61 51 40])).
Proof.
  apply run_independent_of_set_order.
  - intros l. apply Permutation_sym, Permutation_rev.
  - intros l. apply Permutation_refl.
Defined.

Lemma check_sources_inv device_freq relevant o :
  check_sources device_freq relevant = Ok o ->
  (relevant = [] /\ o = Idle)
  \/ ((1 < List.length relevant)%nat /\ o = AmbiguousSources)
  \/ exists source volume_ok,
       relevant = [source]
       /\ _is_volume_at_100 source = Ok volume_ok
       /\ ((volume_ok = false /\ o = VolumeMismatch)
           \/ (volume_ok = true
               /\ exists source_freq,
                    _get_node_sample_rate source = Ok source_freq
                    /\ o = if truthy source_freq
                              && negb (py_eq device_freq source_freq)
                           then RateMismatch else Consistent device_freq)).
Proof.
  destruct relevant as [|s [|s' more]]; simpl.
  - intros [= <-]. auto.
  - unfold check_single_source. intros H. right. right.
    destruct (_is_volume_at_100 s) as [[]|] eqn:Hvol; try discriminate;
      rewrite bind_ok in H; simpl in H.
    + exists s, true. split; [reflexivity|]. split; [exact Hvol|]. right.
      split; [reflexivity|].
      destruct (_get_node_sample_rate s) as [sf|] eqn:Hrate; [|discriminate].
      rewrite bind_ok in H.
      destruct (_get_node_descriptive_name s); [|discriminate].
      rewrite bind_ok in H.
      destruct (py_get s "id" VNone); [|discriminate].
      rewrite bind_ok in H. exists sf. split; [reflexivity|].
      destruct (truthy sf && negb (py_eq device_freq sf)); congruence.
    + injection H as <-. exists s, false. auto.
  - intros [= <-]. right. left. split; [lia|reflexivity].
Qed.

Lemma run_inv set_iter name acquired o :
  run set_iter name acquired = Ok o ->
  (o = Error /\ truthy (_get_pipewire_graph acquired) = false)
  \/ exists snapshot g target,
       acquired = Some snapshot
       /\ truthy snapshot = true
       /\ PipeWireGraph_init snapshot = Ok g
       /\ _find_node_by_name g name = Ok target
       /\ ((truthy target = false /\ o = DeviceNotFound)
           \/ (truthy target = true
               /\ exists device_freq,
                    _get_node_sample_rate target = Ok device_freq
                    /\ ((truthy device_freq = false /\ o = Error)
                        \/ (truthy device_freq = true
                            /\ exists volume_ok,
                                 _is_volume_at_100 target = Ok volume_ok
                                 /\ ((volume_ok = false /\ o = VolumeMismatch)
                                     \/ (volume_ok = true
                                         /\ exists relevant,
                                              reaches_sources set_iter name
                                                snapshot device_freq relevant
                                              /\ check_sources device_freq
                                                   relevant = Ok o)))))).
Proof.
  unfold run. destruct (truthy (_get_pipewire_graph acquired)) eqn:Hne; simpl.
  2:{ intros [= <-]. auto. }
  destruct acquired as [snapshot|]; [|discriminate]. simpl in *.
  destruct (PipeWireGraph_init snapshot) as [g|] eqn:Hinit; [|discriminate].
  rewrite bind_ok.
  destruct (_find_node_by_name g name) as [target|] eqn:Hfind; [|discriminate].
  rewrite bind_ok. intros H. right. exists snapshot, g, target.
  do 4 (split; [reflexivity || assumption|]).
  destruct (truthy target) eqn:Ht; simpl in H.
  2:{ injection H as <-. auto. }
  right. split; [reflexivity|]. unfold check_target in H.
  destruct (_get_node_sample_rate target) as [device_freq|] eqn:Hrate;
    [|discriminate].
  rewrite bind_ok in H. exists device_freq. split; [reflexivity|].
  destruct (truthy device_freq) eqn:Hknown; simpl in H.
  2:{ injection H as <-. auto. }
  right. split; [reflexivity|].
  destruct (_is_volume_at_100 target) as [ok|] eqn:Hvol; [|discriminate].
  rewrite bind_ok in H. exists ok. split; [reflexivity|].
  destruct ok; simpl in H.
  2:{ injection H as <-. auto. }
  right. split; [reflexivity|].
  destruct (py_getitem target "id") as [tid|] eqn:Hid; [|discriminate].
  rewrite bind_ok in H.
  destruct (_get_connected_source_nodes set_iter g tid) as [srcs|] eqn:Hsrcs;
    [|discriminate].
  rewrite bind_ok in H.
  destruct (_filter_sources srcs) as [relevant|] eqn:Hfilter; [|discriminate].
  rewrite bind_ok in H. exists relevant. split; [|exact H].
  exists g, target, tid, srcs. repeat split; assumption.
Qed.

(** ** What each outcome tells *)









(** X12.  [run] reports [DeviceNotFound] only when the dump was acquired, is not
    empty, the graph was built, and every node of the index was tested
    and none has a raw name containing the target. *)
Theorem device_not_found_only_without_match
  (set_iter : list value -> list value) (name : string)
  (acquired : option value)
  (Hrun : run set_iter name acquired = Ok DeviceNotFound) :
  exists snapshot g,
    acquired = Some snapshot
    /\ truthy snapshot = true
    /\ PipeWireGraph_init snapshot = Ok g
    /\ forall node, In node (idx_values (nodes g)) ->
                    name_test name node = Ok false.
Proof.
  destruct (run_inv _ _ _ _ Hrun)
    as [[? _]|(snapshot & g & target & -> & Hne & Hinit & Hfind & H)];
    [discriminate|].
  exists snapshot, g. do 3 (split; [reflexivity || assumption|]).
  destruct H as [[Hfalsy _]|(_ & d & _ & [[_ ?]|(_ & ok & _ & [[_ ?]|H])])];
    try discriminate.
  - destruct (find_first_named_cases _ _ _ Hfind)
      as [(before & after & Hsplit & _)|[_ Hall]]; [|exact Hall].
    rewrite (index_nodes_truthy _ _ target Hinit) in Hfalsy; [discriminate|].
    rewrite Hsplit. apply in_or_app. right. left. reflexivity.
  - destruct H as (_ & relevant & _ & Hcheck).
    destruct (check_sources_inv _ _ _ Hcheck)
      as [[_ ?]|[[_ ?]|(source & sok & _ & _ & [[_ ?]|H])]];
      try discriminate.
    destruct H as (_ & sf & _ & Ho).
    destruct (truthy sf && negb (py_eq d sf)); discriminate.
Qed.

Lemma device_not_found_only_without_match_witness :
  exists snapshot g,
    Some (VList [Samples.sink]) = Some snapshot
    /\ truthy snapshot = true
    /\ PipeWireGraph_init snapshot = Ok g
    /\ forall node, In node (idx_values (nodes g)) ->
                    name_test "hdmi" node = Ok false.
Proof.
  apply (device_not_found_only_without_match Samples.in_order "hdmi").
  reflexivity.
Defined.

(** X13.  [run] reports [Error] only when no dump was acquired or the dump is
    empty (falsy), or when the target was found and its sample rate is
    unknown or zero (falsy). *)
Theorem error_only_without_dump_or_rate
  (set_iter : list value -> list value) (name : string)
  (acquired : option value)
  (Hrun : run set_iter name acquired = Ok Error) :
  acquired = None
  \/ (exists snapshot, acquired = Some snapshot /\ truthy snapshot = false)
  \/ exists snapshot g target rate,
       acquired = Some snapshot
       /\ PipeWireGraph_init snapshot = Ok g
       /\ _find_node_by_name g name = Ok target
       /\ _get_node_sample_rate target = Ok rate
       /\ truthy rate = false.
Proof.
  destruct (run_inv _ _ _ _ Hrun)
    as [[_ Hfalsy]|(snapshot & g & target & -> & Hne & Hinit & Hfind & H)].
  - destruct acquired as [snapshot|]; [|auto]. right. left. eauto.
  - right. right.
    destruct H
      as [[_ ?]|(_ & d & Hrate & [[Hzero _]|(_ & ok & _ & [[_ ?]|H])])];
      try discriminate.
    + exists snapshot, g, target, d. auto.
    + destruct H as (_ & relevant & _ & Hcheck).
      destruct (check_sources_inv _ _ _ Hcheck)
        as [[_ ?]|[[_ ?]|(source & sok & _ & _ & [[_ ?]|H])]];
        try discriminate.
      destruct H as (_ & sf & _ & Ho).
      destruct (truthy sf && negb (py_eq d sf)); discriminate.
Qed.

Lemma error_only_without_dump_or_rate_witness :
  let silent := Samples.node_elem 40
                  [("props", VDict [("node.name", VStr "usb-dac")])] in
  Some (VList [silent]) = None
  \/ (exists snapshot, Some (VList [silent]) = Some snapshot
                       /\ truthy snapshot = false)
  \/ exists snapshot g target rate,
       Some (VList [silent]) = Some snapshot
       /\ PipeWireGraph_init snapshot = Ok g
       /\ _find_node_by_name g "usb-dac" = Ok target
       /\ _get_node_sample_rate target = Ok rate
       /\ truthy rate = false.
Proof.
  intro silent.
  apply (error_only_without_dump_or_rate Samples.in_order "usb-dac").
  reflexivity.
Defined.

(** ** Well-formed dumps *)

Lemma element_ok_parts e :
  element_ok e = true ->
  record_ok e = true /\ well_shaped e = true
  /\ named_by_string e = true /\ output_hashable e = true.
Proof.
  unfold element_ok. intros H.
  apply andb_prop in H as [H H4]. apply andb_prop in H as [H H3].
  apply andb_prop in H as [H1 H2]. auto.
Qed.

Lemma find_first_named_total name candidates :
  (forall n, In n candidates -> named_by_string n = true) ->
  exists found, find_first_named name candidates = Ok found
                /\ (found = VNone \/ In found candidates).
Proof.
  induction candidates as [|node rest IH]; intros H.
  - exists VNone. auto.
  - rewrite find_first_named_step. unfold name_test.
    pose proof (H node (or_introl eq_refl)) as Hn. unfold named_by_string in Hn.
    destruct (raw_name node) as [[| | | |s| |]|]; try discriminate.
    rewrite bind_ok. simpl py_contains. rewrite bind_ok.
    destruct (is_substring name s).
    + exists node. split; [reflexivity|]. right. left. reflexivity.
    + destruct IH as (found & -> & Hfound);
        [intros n Hn'; apply H; right; exact Hn'|].
      exists found. split; [reflexivity|].
      destruct Hfound; auto. right. right. assumption.
Qed.

Lemma well_shaped_resolves node :
  well_shaped node = true ->
  returns (_get_node_sample_rate node)
  /\ returns (_get_node_descriptive_name node)
  /\ returns (_is_volume_at_100 node)
  /\ exists d, node = VDict d.
Proof.
  intros H.
  destruct (well_shaped_fields _ H)
    as (nd & props & params & -> & Hprops & Hparams & Hok & _).
  pose proof (descriptive_name_total _ _ Hprops) as Hname.
  repeat split; eauto using sample_rate_total, volume_total.
Qed.

Lemma collect_source_ids_total target_id link_list :
  (forall l, In l link_list -> output_hashable l = true) ->
  forall acc, returns (collect_source_ids target_id link_list acc).
Proof.
  induction link_list as [|link rest IH]; intros H acc.
  - unfold returns. simpl. eauto.
  - rewrite collect_source_ids_cons.
    pose proof (H link (or_introl eq_refl)) as Hl. unfold output_hashable in Hl.
    destruct (py_get link "info" empty_dict) as [info|] eqn:Hinfo;
      [|discriminate Hl].
    rewrite bind_ok in Hl. rewrite bind_ok.
    destruct (py_get info "output-node-id" VNone) as [out|] eqn:Hout;
      [|discriminate Hl].
    destruct (py_get_returns_dict _ _ _ _ Hout) as [d ->].
    rewrite py_get_field in Hout. injection Hout as <-.
    rewrite !py_get_field, bind_ok.
    destruct (py_eq (field d "input-node-id") target_id).
    + rewrite bind_ok, Hl. apply IH. intros l Hin. apply H. right. exact Hin.
    + apply IH. intros l Hin. apply H. right. exact Hin.
Qed.

Lemma index_values_from_items tag items d e :
  index_by_type tag items [] = Ok d ->
  In e (idx_values d) -> In e items.
Proof.
  intros H He.
  destruct (index_by_type_sound _ _ _ _ H e He) as [[]|[Hin _]]. exact Hin.
Qed.

Lemma resolve_ids_from_index g ids n :
  In n (resolve_ids g ids) -> In n (idx_values (nodes g)).
Proof.
  intros H. apply resolve_ids_in in H as (x & _ & Hget).
  destruct (idx_get_entry _ _ _ Hget) as (k0 & Hin & _).
  apply in_map_iff. exists (k0, n). auto.
Qed.

Lemma check_sources_total device_freq relevant :
  (forall n, In n relevant -> well_shaped n = true) ->
  returns (check_sources device_freq relevant).
Proof.
  destruct relevant as [|s [|s' more]]; intros H; unfold returns;
    [simpl; eauto| |simpl; eauto].
  change (check_sources device_freq [s])
    with (check_single_source device_freq s).
  destruct (well_shaped_resolves s (H s (or_introl eq_refl)))
    as ([r Hr] & [nm Hn] & [v Hv] & d & ->).
  unfold check_single_source. rewrite Hv, bind_ok.
  destruct v; simpl negb; cbv iota; [|eauto].
  rewrite Hr, bind_ok, Hn, bind_ok, py_get_dict, bind_ok.
  destruct (truthy r && negb (py_eq device_freq r)); eauto.
Qed.

(** X14.  On a dump whose elements are all well formed (records with a string
    type and a hashable "id" where tagged, containers of the expected
    kind, a string for the raw name, a hashable output side) [run]
    returns an outcome: it raises nothing, whatever the target name and
    the walk of the source set. *)
Theorem run_total_on_well_formed_dump (set_iter : list value -> list value)
  (name : string) (items : list value)
  (Hitems : forallb element_ok items = true) :
  returns (run set_iter name (Some (VList items))).
Proof.
  assert (Hall : forall e, In e items -> element_ok e = true)
    by (apply forallb_forall; exact Hitems).
  assert (Hrec : forallb record_ok items = true).
  { apply forallb_forall. intros e He.
    apply (element_ok_parts _ (Hall e He)). }
  unfold run. simpl _get_pipewire_graph.
  destruct (negb (truthy (VList items))); [unfold returns; eauto|].
  unfold PipeWireGraph_init. simpl py_iter. rewrite bind_ok.
  destruct (index_by_type_total "Node" items (or_introl eq_refl) Hrec [])
    as [ns Hns].
  destruct (index_by_type_total "Link" items (or_intror eq_refl) Hrec [])
    as [ls Hls].
  rewrite Hns, bind_ok, bind_ok, Hls, bind_ok, bind_ok.
  assert (Hnodes : forall n, In n (idx_values ns) -> element_ok n = true)
    by (intros n Hn; apply Hall;
        exact (index_values_from_items _ _ _ _ Hns Hn)).
  assert (Hlinks : forall l, In l (idx_values ls) -> element_ok l = true)
    by (intros l Hl; apply Hall;
        exact (index_values_from_items _ _ _ _ Hls Hl)).
  unfold _find_node_by_name. simpl nodes.
  destruct (find_first_named_total name (idx_values ns))
    as (target & -> & Htarget).
  { intros n Hn. apply (element_ok_parts _ (Hnodes n Hn)). }
  rewrite bind_ok.
  destruct Htarget as [-> | Htarget]; [unfold returns; simpl; eauto|].
  destruct (negb (truthy target)); [unfold returns; eauto|].
  destruct (element_ok_parts _ (Hnodes _ Htarget)) as (Hr & Hw & _).
  destruct (well_shaped_resolves _ Hw) as ([r Hrate] & _ & [v Hvol] & d & ->).
  unfold check_target. rewrite Hrate, bind_ok.
  destruct (negb (truthy r)); [unfold returns; eauto|].
  rewrite Hvol, bind_ok. destruct (negb v); [unfold returns; eauto|].
  destruct (index_by_type_invariant _ _ _ _ Hns (Forall_nil _) I)
    as [Hentries _].
  apply in_map_iff in Htarget as ([k0 t] & Ht & Hin). simpl in Ht. subst t.
  rewrite Forall_forall in Hentries.
  destruct (Hentries _ Hin) as (_ & _ & key & Hid & _). cbn [snd] in Hid.
  rewrite Hid, bind_ok. unfold _get_connected_source_nodes. simpl links.
  destruct (collect_source_ids_total key (idx_values ls))
    with (acc := @nil value) as [ids Hids].
  { intros l Hl. apply (element_ok_parts _ (Hlinks l Hl)). }
  rewrite Hids, bind_ok, bind_ok.
  assert (Hsrc : forall n, In n (resolve_ids (mkGraph ns ls) (set_iter ids)) ->
                           well_shaped n = true).
  { intros n Hn. apply resolve_ids_from_index in Hn.
    apply (element_ok_parts _ (Hnodes n Hn)). }
  rewrite filter_sources_eq.
  replace (forallb name_resolves (resolve_ids (mkGraph ns ls) (set_iter ids)))
    with true.
  - rewrite bind_ok. apply check_sources_total.
    intros n Hn. apply filter_In in Hn as [Hn _]. auto.
  - symmetry. apply forallb_forall. intros n Hn. unfold name_resolves.
    destruct (well_shaped_resolves _ (Hsrc n Hn)) as (_ & [nm ->] & _).
    reflexivity.
Qed.

Lemma run_total_on_well_formed_dump_witness :
  returns (run Samples.in_order "usb-dac"
             (Some (VList [Samples.sink; Samples.player 50 44100 "running";
                           Samples.link_elem 60 50 40;
                           VDict [("id", VInt 3);
                                  ("type", VStr "PipeWire:Interface:Port")]]))).
Proof. apply run_total_on_well_formed_dump. reflexivity. Defined.

(** ** Formatting the result *)

Lemma str_app_assoc (a b c : string) :
  (a ++ (b ++ c) = (a ++ b) ++ c)%string.
Proof.
  induction a as [|x a IH]; simpl; [reflexivity|]. rewrite IH. reflexivity.
Qed.

Lemma str_replace_char_app old new a b :
  str_replace_char old new (a ++ b)%string
  = (str_replace_char old new a ++ str_replace_char old new b)%string.
Proof.
  induction a as [|c a IH]; simpl; [reflexivity|].
  destruct (Ascii.eqb c old); rewrite IH; [|reflexivity].
  apply str_app_assoc.
Qed.

Lemma str_replace_char_cons old new c s :
  str_replace_char old new (String c s)
  = ((if Ascii.eqb c old then new else String c EmptyString)
     ++ str_replace_char old new s)%string.
Proof. simpl. destruct (Ascii.eqb c old); reflexivity. Qed.

Lemma xml_escape_one_pass text : xml_escape text = escape_each text.
Proof.
  unfold xml_escape. induction text as [|c text IH]; [reflexivity|].
  rewrite (str_replace_char_cons "&"), !str_replace_char_app, IH.
  simpl escape_each. f_equal. unfold escape_char.
  destruct (Ascii.eqb c "&"); [reflexivity|].
  rewrite (str_replace_char_cons "<").
  destruct (Ascii.eqb c "<"); [reflexivity|].
  simpl. destruct (Ascii.eqb c ">"); reflexivity.
Qed.

Lemma chars_of_app (a b : string) :
  list_ascii_of_string (a ++ b)%string
  = list_ascii_of_string a ++ list_ascii_of_string b.
Proof.
  induction a as [|c a IH]; simpl; [reflexivity|]. rewrite IH. reflexivity.
Qed.

Lemma escape_each_markup_free text c :
  In c (list_ascii_of_string (escape_each text)) ->
  c <> "<"%char /\ c <> ">"%char.
Proof.
  induction text as [|x text IH]; simpl; [intros []|].
  rewrite chars_of_app. intros Hin.
  apply in_app_or in Hin as [Hin|Hin]; [|auto].
  unfold escape_char in Hin.
  destruct (Ascii.eqb x "&");
    [simpl in Hin; repeat destruct Hin as [<-|Hin]; try destruct Hin;
     split; discriminate|].
  destruct (Ascii.eqb x "<") eqn:Hlt;
    [simpl in Hin; repeat destruct Hin as [<-|Hin]; try destruct Hin;
     split; discriminate|].
  destruct (Ascii.eqb x ">") eqn:Hgt;
    [simpl in Hin; repeat destruct Hin as [<-|Hin]; try destruct Hin;
     split; discriminate|].
  destruct Hin as [<-|[]].
  apply Ascii.eqb_neq in Hlt, Hgt. auto.
Qed.

Lemma xml_unescape_escape_each text : xml_unescape (escape_each text) = text.
Proof.
  induction text as [|x text IH]; [reflexivity|].
  simpl escape_each. unfold escape_char.
  destruct (Ascii.eqb x "&") eqn:Hamp.
  - apply Ascii.eqb_eq in Hamp. subst x. simpl. rewrite IH. reflexivity.
  - destruct (Ascii.eqb x "<") eqn:Hlt.
    + apply Ascii.eqb_eq in Hlt. subst x. simpl. rewrite IH. reflexivity.
    + destruct (Ascii.eqb x ">") eqn:Hgt.
      * apply Ascii.eqb_eq in Hgt. subst x. simpl. rewrite IH. reflexivity.
      * simpl. rewrite Hamp, IH. reflexivity.
Qed.

(** X15.  The result of [_format_output] is the status text followed by one
    [tool] element whose content has no ["<"] and no [">"], whatever the
    buffer holds: the three replacements amount to one pass that writes
    each of ["&"], ["<"], [">"] as its entity, so nothing is escaped
    twice. *)
Theorem format_output_tooltip_is_escaped (isspace : ascii -> bool)
  (status_text log_buffer : string) :
  exists tooltip,
    _format_output isspace status_text log_buffer
    = (status_text ++ "<tool>" ++ tooltip ++ "</tool>")%string
    /\ tooltip = escape_each (strip isspace log_buffer)
    /\ forall c, In c (list_ascii_of_string tooltip) ->
                 c <> "<"%char /\ c <> ">"%char.
Proof.
  exists (xml_escape (strip isspace log_buffer)).
  split; [reflexivity|]. rewrite xml_escape_one_pass.
  split; [reflexivity|]. apply escape_each_markup_free.
Qed.

(** X16.  The escaping loses nothing: reading the three entities back gives the
    text again, so two different texts are never escaped to the same
    tooltip. *)
Theorem xml_escape_reversible (text text' : string) :
  xml_unescape (xml_escape text) = text
  /\ (xml_escape text = xml_escape text' -> text = text').
Proof.
  assert (Hback : forall t, xml_unescape (xml_escape t) = t)
    by (intros t; rewrite xml_escape_one_pass; apply xml_unescape_escape_each).
  split; [apply Hback|].
  intros Heq. rewrite <- (Hback text), <- (Hback text'), Heq. reflexivity.
Qed.
